(** * refactor_tools.import_refactor_helper

    A shallow embedding of [refactor_tools/import_refactor_helper.py]: the
    two import matchers built by [make_import_regexes], the structural
    checker [ImportCheckerVisitor] / [imports_module], the directory
    walker [BaseImportWalker] with its three subclasses, and the report
    rendering of the finder and of the renamer.

    Python objects become records, the file system is a finite map from
    paths to contents, and a method that mutates [self] or a file becomes
    a computation in a state-and-exception monad in which the state
    survives a raised exception, as the Python heap and the disk do. *)

From stdpp Require Import gmap strings list fin_maps sorting.
From Stdlib Require Import Ascii String.

Local Open Scope string_scope.
Local Set Warnings "-register-all".

(** ** Strings *)

Definition newline : ascii := "010"%char.

(** The one-character string holding a newline. *)
Definition NL : string := String newline "".

(** [str.startswith]: [startswith s p] is [s.startswith(p)]. *)
Definition startswith (s p : string) : bool := String.prefix p s.

(** Text of [s] up to, and excluding, its first newline. *)
Fixpoint line_of (s : string) : string :=
  match s with
  | "" => ""
  | String c s' => if Ascii.eqb c newline then "" else String c (line_of s')
  end.

(** [str.join] with a newline as the separator. *)
Fixpoint join_lines (l : list string) : string :=
  match l with
  | [] => ""
  | [x] => x
  | x :: l' => x +:+ String newline (join_lines l')
  end.

(** [str.split] at newlines. *)
Fixpoint split_lines (s : string) : list string :=
  match s with
  | "" => [""]
  | String c s' =>
      if Ascii.eqb c newline then "" :: split_lines s'
      else match split_lines s' with
           | [] => [String c ""]
           | l :: ls => String c l :: ls
           end
  end.

(** ** The pattern language of the two templates

    [IMPORT_PATTERN_TEMPLATE] is the text [import ], the module name and
    a group holding dot-star; [IMPORT_FROM_PATTERN_TEMPLATE] is the text
    [from ], the module name and a group holding dot-star, the text
    [ import ] and dot-plus.  The module name is pasted into the pattern
    unescaped, so each of its characters is read by [re.compile]: a
    letter, a digit or an underscore stands for itself and a dot stands
    for any character but a newline.  A pattern is therefore a
    fixed-length head followed by the one group of its template. *)

Inductive atom : Type :=
| Lit (c : ascii)
| Dot.

Definition atom_matches (a : atom) (c : ascii) : bool :=
  match a with
  | Lit d => Ascii.eqb d c
  | Dot => negb (Ascii.eqb c newline)
  end.

Fixpoint literal (s : string) : list atom :=
  match s with
  | "" => []
  | String c s' => Lit c :: literal s'
  end.

(** A module identifier: a non-empty dotted path of letters, digits and
    underscores.  Those are the names for which the reading of a name as
    a pattern below, and of a name inside a replacement template, is that
    of [re]. *)
Definition ident_char (c : ascii) : bool :=
  let n := nat_of_ascii c in
  ((97 <=? n) && (n <=? 122) || (65 <=? n) && (n <=? 90)
   || (48 <=? n) && (n <=? 57) || (n =? 95) || (n =? 46))%nat.

Fixpoint all_ident_chars (s : string) : bool :=
  match s with
  | "" => true
  | String c s' => ident_char c && all_ident_chars s'
  end.

Definition dotted_name (s : string) : bool :=
  negb (String.eqb s "") && all_ident_chars s.

(** The characters of a module name as the pattern compiler reads them. *)
Fixpoint atoms_of (s : string) : list atom :=
  match s with
  | "" => []
  | String c s' => (if Ascii.eqb c "."%char then Dot else Lit c) :: atoms_of s'
  end.

Inductive group : Type :=
| RestOfLine      (* dot-star *)
| ImportClause.   (* dot-star, [ import ], dot-plus *)

Record regex : Type := Regex { re_head : list atom; re_group : group }.

Definition IMPORT_FROM_PATTERN_TEMPLATE (module_name : string) : regex :=
  Regex (literal "from " ++ atoms_of module_name) ImportClause.

Definition IMPORT_PATTERN_TEMPLATE (module_name : string) : regex :=
  Regex (literal "import " ++ atoms_of module_name) RestOfLine.

Definition make_import_regexes (module_name : string) : regex * regex :=
  let import_from_regex := IMPORT_FROM_PATTERN_TEMPLATE module_name in
  let import_regex := IMPORT_PATTERN_TEMPLATE module_name in
  (import_regex, import_from_regex).

(** Match the head at the start of [s]; the text after it on success. *)
Fixpoint match_head (h : list atom) (s : string) : option string :=
  match h with
  | [] => Some s
  | a :: h' =>
      match s with
      | "" => None
      | String c s' => if atom_matches a c then match_head h' s' else None
      end
  end.

(** The group of the from-import template against a whole line
    remainder: some occurrence of [ import ] (with its two spaces) is
    followed by at least one character. *)
Fixpoint import_clause (l : string) : bool :=
  match l with
  | "" => false
  | String _ l' =>
      (String.prefix " import " l && (8 <? String.length l)%nat) || import_clause l'
  end.

(** The pattern anchored at the start of [s]: the text of group 1.  Both
    groups are greedy and end with dot-star or dot-plus, so group 1 is the whole
    remainder of the line whenever the pattern matches. *)
Definition match_at (r : regex) (s : string) : option string :=
  match match_head (re_head r) s with
  | None => None
  | Some rest =>
      let g := line_of rest in
      match re_group r with
      | RestOfLine => Some g
      | ImportClause => if import_clause g then Some g else None
      end
  end.

(** [regex.search(source)], as a truth value. *)
Fixpoint re_search (r : regex) (s : string) : bool :=
  match match_at r s with
  | Some _ => true
  | None => match s with
            | "" => false
            | String _ s' => re_search r s'
            end
  end.

(** The left-to-right scan shared by [finditer] and [sub]: the source cut
    into unmatched characters and matches.  A match runs from its first
    character to the end of its line; [inside] says that the scan is
    still within the text of the last match. *)
Inductive piece : Type :=
| Unmatched (c : ascii)
| Matched (g1 : string).

Fixpoint scan (r : regex) (inside : bool) (s : string) : list piece :=
  match s with
  | "" => []
  | String c s' =>
      if inside && negb (Ascii.eqb c newline) then scan r true s'
      else match match_at r s with
           | Some g => Matched g :: scan r true s'
           | None => Unmatched c :: scan r false s'
           end
  end.

(** [regex.finditer(source)]: group 1 of every match, in order. *)
Definition re_finditer (r : regex) (s : string) : list string :=
  omap (fun p => match p with Matched g => Some g | Unmatched _ => None end)
       (scan r false s).

(** [match.expand(repl)] for a template made of a text followed by a
    reference to group 1. *)
Definition expand (repl g1 : string) : string := repl +:+ g1.

Fixpoint render (repl : string) (ps : list piece) : string :=
  match ps with
  | [] => ""
  | Unmatched c :: ps' => String c (render repl ps')
  | Matched g :: ps' => expand repl g +:+ render repl ps'
  end.

(** [regex.sub(repl, source)] *)
Definition re_sub (r : regex) (repl s : string) : string :=
  render repl (scan r false s).

(** ** Syntax trees

    The part of a Python syntax tree that [ast.NodeVisitor] can tell
    apart here: the two import statements, and any other node, of which
    [generic_visit] visits the children in order ([Module], [FunctionDef],
    [If], [TryExcept], ...). *)

Record alias : Type := Alias { name : string; asname : option string }.

Inductive node : Type :=
| Import (names : list alias)
| ImportFrom (module : option string) (names : list alias) (level : nat)
| Node (children : list node).

Module ImportCheckerVisitor.

Record t : Type := Build { module_name : string; import_found : bool }.

Definition init (module_name : string) : t := Build module_name false.

Definition set_import_found (self : t) : t := Build (module_name self) true.

Definition visit_ImportFrom (self : t)
    (module : option string) (names : list alias) (level : nat) : t :=
  match module with
  | None => self      (* relative imports have None as the module attribute *)
  | Some m =>
      if startswith m (module_name self) then set_import_found self else self
  end.

Definition visit_Import (self : t) (names : list alias) : t :=
  let module_names : gset string := list_to_set (name <$> names) in
  if existsb (fun m => startswith m (module_name self)) (elements module_names)
  then set_import_found self
  else self.

(** [NodeVisitor.visit]: dispatch on the class of the node, falling back
    on [generic_visit]. *)
Fixpoint visit (n : node) (self : t) : t :=
  match n with
  | Import names => visit_Import self names
  | ImportFrom module names level => visit_ImportFrom self module names level
  | Node children => fold_left (fun v c => visit c v) children self
  end.

End ImportCheckerVisitor.

(** ** Exceptions, the world and the monad *)

Inductive exn : Type :=
| IOError (path : string)
| SyntaxError
| AttributeError
| NotImplementedError.

Inductive result (A : Type) : Type :=
| Returned (a : A)
| Raised (e : exn).
Arguments Returned {A} a.
Arguments Raised {A} e.

(** What lies outside the interpreter: the content of every readable
    file, the paths that cannot be opened for writing (read-only files),
    the paths written so far, oldest first, and the lines printed. *)
Record world : Type := World {
  files : gmap string string;
  unwritable : gset string;
  writes : list string;
  stdout : list string
}.

(** The library functions the module calls.  [ast_parse] is [None] where
    [ast.parse] raises [SyntaxError]; [os_path_walk top] lists the
    directories on which [os.path.walk] calls its visitor, in order. *)
Record runtime : Type := Runtime {
  ast_parse : string -> option node;
  os_path_walk : string -> list string;
  glob_glob : string -> list string;
  os_path_join : string -> string -> string;
  os_path_relpath : string -> string -> string
}.

Definition M (S A : Type) : Type := S -> result A * S.

Definition ret {S A} (a : A) : M S A := fun s => (Returned a, s).

Definition raise {S A} (e : exn) : M S A := fun s => (Raised e, s).

Definition bind {S A B} (c : M S A) (k : A -> M S B) : M S B :=
  fun s => match c s with
           | (Returned a, s') => k a s'
           | (Raised e, s') => (Raised e, s')
           end.

Declare Scope py_scope.
Delimit Scope py_scope with py.
Notation "'let*' x := c 'in' k" := (bind c (fun x => k))
  (at level 10, x name, c at level 100, k at level 200) : py_scope.
Notation "c >> k" := (bind c (fun _ => k))
  (at level 100, k at level 200, right associativity) : py_scope.
Local Open Scope py_scope.

Definition get {S} : M S S := fun s => (Returned s, s).

Definition modify {S} (f : S -> S) : M S unit := fun s => (Returned tt, f s).

(** A [for] loop whose body may raise. *)
Fixpoint for_each {S A} (body : A -> M S unit) (l : list A) : M S unit :=
  match l with
  | [] => ret tt
  | x :: l' => body x >> for_each body l'
  end.

(** Run a computation on the world from a method of an object [W]. *)
Definition io {W A} (c : M world A) : M (W * world) A :=
  fun s => let '(r, w') := c (snd s) in (r, (fst s, w')).

Definition self {W} : M (W * world) W := fun s => (Returned (fst s), s).

Definition update {W} (f : W -> W) : M (W * world) unit :=
  fun s => (Returned tt, (f (fst s), snd s)).

(** [open(path, 'r')] followed by [read()]. *)
Definition read_file (path : string) : M world string :=
  fun w => match files w !! path with
           | Some source => (Returned source, w)
           | None => (Raised (IOError path), w)
           end.

(** [open(path, 'w')] followed by [write(text)]; [open] raises
    [IOError] on a path that cannot be opened for writing. *)
Definition write_file (path text : string) : M world unit :=
  fun w =>
    if decide (path ∈ unwritable w) then (Raised (IOError path), w)
    else (Returned tt,
          World (<[path := text]> (files w)) (unwritable w)
                (writes w ++ [path]) (stdout w)).

(** The [print] statement applied to one string. *)
Definition print (text : string) : M world unit :=
  modify (fun w => World (files w) (unwritable w) (writes w) (stdout w ++ [text])).

(** ** Sorting strings

    [sorted] on a list of [str]: byte-wise lexicographic order. *)

Definition str_le (a b : string) : Prop := String.leb a b = true.

#[global] Instance str_le_dec (a b : string) : Decision (str_le a b).
Proof. unfold str_le. apply _. Defined.

Definition sorted (l : list string) : list string := merge_sort str_le l.

(** ** The structural checker on a file *)

(** Determine one module, specified by path, imports another. *)
Definition imports_module (rt : runtime) (path module_name : string)
  : M world bool :=
  let* source := read_file path in
  match ast_parse rt source with
  | None => raise SyntaxError
  | Some root =>
      let visitor := ImportCheckerVisitor.init module_name in
      let visitor := ImportCheckerVisitor.visit root visitor in
      ret (ImportCheckerVisitor.import_found visitor)
  end.

(** ** The walkers *)

Record BaseImportWalker : Type := Base {
  module_name : string;
  path : option string;
  globs : list string
}.

(** A class derived from [BaseImportWalker]: where the base part of its
    objects is, and its [_visit_module]. *)
Record Walker (W : Type) : Type := MkWalker {
  base : W -> BaseImportWalker;
  with_base : BaseImportWalker -> W -> W;
  _visit_module : string -> M (W * world) unit
}.
Arguments base {W} _ _.
Arguments with_base {W} _ _ _.
Arguments _visit_module {W} _ _ _.
Arguments MkWalker {W} _ _ _.

Module BaseImportWalker.

Definition init (module_name : string) : BaseImportWalker :=
  Base module_name None ["*.py"; "*.enaml"; "*.rst"].

Definition _visit_path {W} (rt : runtime) (cls : Walker W) (dirname : string)
  : M (W * world) unit :=
  let* w := self in
  let glob_patterns := os_path_join rt dirname <$> globs (base cls w) in
  for_each (fun glob_pattern =>
              let module_paths := glob_glob rt glob_pattern in
              for_each (_visit_module cls) module_paths)
           glob_patterns.

(** Walk a directory searching for a specific module import. *)
Definition walk {W} (rt : runtime) (cls : Walker W) (root : string)
  : M (W * world) unit :=
  update (fun w => with_base cls (Base (module_name (base cls w)) (Some root)
                                       (globs (base cls w))) w) >>
  for_each (_visit_path rt cls) (os_path_walk rt root).

(** The base class itself: [_visit_module] must be overloaded. *)
Definition cls : Walker BaseImportWalker :=
  MkWalker (fun w => w) (fun b _ => b) (fun _ => raise NotImplementedError).

End BaseImportWalker.

Record CollectingImportWalker : Type := Collecting {
  collecting_base : BaseImportWalker;
  found_modules : gset string
}.

(** Mapping a function that may raise over a list, stopping at the first
    exception. *)
Fixpoint collect {A B} (f : A -> result B) (l : list A) : result (list B) :=
  match l with
  | [] => Returned []
  | x :: l' =>
      match f x with
      | Raised e => Raised e
      | Returned y =>
          match collect f l' with
          | Raised e => Raised e
          | Returned ys => Returned (y :: ys)
          end
      end
  end.

Module CollectingImportWalker.

Definition init (module_name : string) : CollectingImportWalker :=
  Collecting (BaseImportWalker.init module_name) ∅.

Definition add (module_path : string) (w : CollectingImportWalker)
  : CollectingImportWalker :=
  Collecting (collecting_base w) ({[module_path]} ∪ found_modules w).

(** [os.path.relpath(module_path, self.path)]; [self.path] is [None]
    until [walk] has run. *)
Definition relpath_from (rt : runtime) (start : option string)
    (module_path : string) : result string :=
  match start with
  | Some root => Returned (os_path_relpath rt module_path root)
  | None => Raised AttributeError
  end.

(** The body of [__str__] with the set iterated in the order
    [iteration].  The first assignment to [paths] in the source is
    dead. *)
Definition str_in_order (rt : runtime) (start : option string)
    (iteration : list string) : result string :=
  match collect (relpath_from rt start) iteration with
  | Raised e => Raised e
  | Returned paths => Returned (join_lines (sorted paths))
  end.

Definition __str__ (rt : runtime) (w : CollectingImportWalker)
  : result string :=
  str_in_order rt (path (collecting_base w)) (elements (found_modules w)).

End CollectingImportWalker.

Module ImportFinderAST.

Definition _visit_module (rt : runtime) (module_path : string)
  : M (CollectingImportWalker * world) unit :=
  let* w := self in
  let* found := io (imports_module rt module_path
                      (module_name (collecting_base w))) in
  if found then update (CollectingImportWalker.add module_path) else ret tt.

Definition cls (rt : runtime) : Walker CollectingImportWalker :=
  MkWalker collecting_base
           (fun b w => Collecting b (found_modules w))
           (_visit_module rt).

End ImportFinderAST.

Record ImportFinderRE : Type := FinderRE {
  finder_collecting : CollectingImportWalker;
  finder_import_regex : regex;
  finder_import_from_regex : regex
}.

Module ImportFinderRE.

Definition init (module_name : string) : ImportFinderRE :=
  let '(import_regex, import_from_regex) := make_import_regexes module_name in
  FinderRE (CollectingImportWalker.init module_name)
           import_regex import_from_regex.

Definition add (module_path : string) (w : ImportFinderRE) : ImportFinderRE :=
  FinderRE (CollectingImportWalker.add module_path (finder_collecting w))
           (finder_import_regex w) (finder_import_from_regex w).

Definition _visit_module (module_path : string)
  : M (ImportFinderRE * world) unit :=
  let* source := io (read_file module_path) in
  let* w := self in
  if re_search (finder_import_regex w) source
  then update (add module_path)
  else if re_search (finder_import_from_regex w) source
  then update (add module_path)
  else ret tt.

Definition cls : Walker ImportFinderRE :=
  MkWalker (fun w => collecting_base (finder_collecting w))
           (fun b w =>
              FinderRE (Collecting b (found_modules (finder_collecting w)))
                       (finder_import_regex w) (finder_import_from_regex w))
           _visit_module.

End ImportFinderRE.

Record ImportRenamer : Type := Renamer {
  renamer_base : BaseImportWalker;
  new_module_name : string;
  import_regex : regex;
  import_from_regex : regex;
  import_from_repl : string;
  import_repl : string;
  output : list string
}.

Module ImportRenamer.

(** The two replacement templates end in a reference to group 1, which
    [expand] appends; the fields hold the text before it. *)
Definition init (module_name new_module_name : string) : ImportRenamer :=
  let '(import_regex, import_from_regex) := make_import_regexes module_name in
  Renamer (BaseImportWalker.init module_name) new_module_name
          import_regex import_from_regex
          ("from " +:+ new_module_name) ("import " +:+ new_module_name) [].

Definition output_append (entry : string) (w : ImportRenamer) : ImportRenamer :=
  Renamer (renamer_base w) (new_module_name w) (import_regex w)
          (import_from_regex w) (import_from_repl w) (import_repl w)
          (output w ++ [entry]).

(** Checks whether modified imports will meet pep8: [True], [False], or
    [None] if there are no matches. *)
Fixpoint meets_pep8_loop (repl : string) (matches : list string)
    (retval : option bool) : option bool :=
  match matches with
  | [] => retval
  | g1 :: matches' =>
      let new_line := expand repl g1 in
      if (79 <? String.length new_line)%nat then Some false
      else meets_pep8_loop repl matches' (Some true)
  end.

Definition _meets_pep8 (source : string) (regex : regex) (repl : string)
  : option bool :=
  meets_pep8_loop repl (re_finditer regex source) None.

(** Truth value of the result of [_meets_pep8] in an [if]. *)
Definition truthy (v : option bool) : bool :=
  match v with
  | Some true => true
  | _ => false
  end.

Definition _check (module_path source : string) (regex : regex) (repl : string)
  : M (ImportRenamer * world) (option string) :=
  if negb (re_search regex source) then ret None
  else
    let output :=
      if truthy (_meets_pep8 source regex repl) then module_path
      else "pep8: " +:+ module_path in
    update (output_append output) >>
    ret (Some (re_sub regex repl source)).

(** Check for import statement in source *)
Definition _check_import (module_path source : string)
  : M (ImportRenamer * world) (option string) :=
  let* w := self in
  _check module_path source (import_regex w) (import_repl w).

(** Check for import-from statement in source *)
Definition _check_import_from (module_path source : string)
  : M (ImportRenamer * world) (option string) :=
  let* w := self in
  _check module_path source (import_from_regex w) (import_from_repl w).

Definition _visit_module (module_path : string)
  : M (ImportRenamer * world) unit :=
  let* source := io (read_file module_path) in
  let* new_source := _check_import module_path source in
  let* new_source :=
    match new_source with
    | None => _check_import_from module_path source
    | Some _ => ret new_source
    end in
  match new_source with
  | Some text => io (write_file module_path text)
  | None => ret tt
  end.

Definition cls : Walker ImportRenamer :=
  MkWalker renamer_base
           (fun b w =>
              Renamer b (new_module_name w) (import_regex w)
                      (import_from_regex w) (import_from_repl w)
                      (import_repl w) (output w))
           _visit_module.

Definition __str__ (w : ImportRenamer) : string := join_lines (output w).

End ImportRenamer.

(** ** Entry points *)

(** Running a method on a freshly built object, keeping the object only
    for the duration of [body]. *)
Definition with_object {W A} (obj : W) (body : M (W * world) A) : M world A :=
  fun w => let '(r, (_, w')) := body (obj, w) in (r, w').

(** Find imports in python modules under path that import the named
    module. *)
Definition find_imports (rt : runtime) (path module_name : string)
  : M world unit :=
  with_object (ImportFinderRE.init module_name)
    (BaseImportWalker.walk rt ImportFinderRE.cls path >>
     let* finder := self in
     match CollectingImportWalker.__str__ rt (finder_collecting finder) with
     | Returned text => io (print text)
     | Raised e => raise e
     end).

(** Rename imports in python modules under path that import the named
    module. *)
Definition rename_imports (rt : runtime) (path module_name new_module_name : string)
  : M world unit :=
  with_object (ImportRenamer.init module_name new_module_name)
    (BaseImportWalker.walk rt ImportRenamer.cls path >>
     let* renamer := self in
     io (print (ImportRenamer.__str__ renamer))).

(** ** Notions used in the statements *)

(** The module names a tree imports: every name of an [import], and the
    source module of every [from ... import] that has one. *)
Fixpoint imported_modules (n : node) : list string :=
  match n with
  | Import names => name <$> names
  | ImportFrom (Some m) _ _ => [m]
  | ImportFrom None _ _ => []
  | Node children => List.concat (imported_modules <$> children)
  end.

(** The submodule rule: the imported name is the module itself, or the
    module followed by a dot and more. *)
Definition submodule_match (module_name imported : string) : Prop :=
  imported = module_name \/ String.prefix (module_name +:+ ".") imported = true.

(** The paths on which [walk] calls [_visit_module], in order: for every
    directory, the matches of each glob pattern in turn. *)
Definition candidates (rt : runtime) (globs : list string) (root : string)
  : list string :=
  dirname ← os_path_walk rt root;
  glob_pattern ← (os_path_join rt dirname <$> globs);
  glob_glob rt glob_pattern.

(** ** A small runtime for running the code on concrete trees

    One flat directory; [ast.parse] is given by the table of the sources
    that parse, [glob.glob] by the table of its results, [os.path.join]
    puts a slash between its arguments and [os.path.relpath] removes the
    start directory and the slash from a path below it. *)

Fixpoint assoc {A} (l : list (string * A)) (k : string) : option A :=
  match l with
  | [] => None
  | (k', v) :: l' => if String.eqb k k' then Some v else assoc l' k
  end.

Fixpoint drop_prefix (p s : string) : option string :=
  match p, s with
  | "", _ => Some s
  | String a p', String b s' => if Ascii.eqb a b then drop_prefix p' s' else None
  | _, "" => None
  end.

Definition flat_runtime (parses : list (string * node))
    (listing : list (string * list string)) : runtime :=
  {| ast_parse := assoc parses;
     os_path_walk := fun top => [top];
     glob_glob := fun pattern => default [] (assoc listing pattern);
     os_path_join := fun a b => a +:+ "/" +:+ b;
     os_path_relpath := fun p start => default p (drop_prefix (start +:+ "/") p) |}.

Definition world_of (l : list (string * string)) : world :=
  World (list_to_map l) ∅ [] [].

(** The world [w] with the files of [l] made read-only. *)
Definition read_only (l : list string) (w : world) : world :=
  World (files w) (list_to_set l ∪ unwritable w) (writes w) (stdout w).

(** ** Concrete trees *)

(** A file holding only [import Mother]. *)
Definition mother_source : string := "import Mother".

Definition mother_tree : node := Node [Import [Alias "Mother" None]].

Definition mother_rt : runtime :=
  flat_runtime [(mother_source, mother_tree)] [("root/*.py", ["root/m.py"])].

Definition mother_world : world := world_of [("root/m.py", mother_source)].

(** A file holding only [from .sub import x]: [ast.parse] gives the
    module [sub] and the level 1. *)
Definition relative_source : string := "from .sub import x".

Definition relative_tree : node :=
  Node [ImportFrom (Some "sub") [Alias "x" None] 1].

Definition relative_rt : runtime :=
  flat_runtime [(relative_source, relative_tree)] [("pkg/*.py", ["pkg/r.py"])].

Definition relative_world : world := world_of [("pkg/r.py", relative_source)].

(** [imports rt w M p]: the structural checker returns [True] on [p]. *)
Definition imports (rt : runtime) (w : world) (M p : string) : bool :=
  match (imports_module rt p M w).1 with
  | Returned true => true
  | _ => false
  end.

(** Three files, the second of which does not parse. *)
Definition broken_rt : runtime :=
  flat_runtime
    [("import foo.bar", Node [Import [Alias "foo.bar" None]]);
     ("from foo import baz", Node [ImportFrom (Some "foo") [Alias "baz" None] 0])]
    [("root/*.py", ["root/a.py"; "root/b.py"; "root/c.py"])].

Definition broken_world : world :=
  world_of [("root/a.py", "import foo.bar");
            ("root/b.py", "import (");
            ("root/c.py", "from foo import baz")].

(** ** The renamer on one file, described *)

(** The world after [text] has been written to [path]. *)
Definition written (w : world) (path text : string) : world :=
  World (<[path := text]> (files w)) (unwritable w) (writes w ++ [path]) (stdout w).

(** The end of a visit that found a match: [obj] already holds the new
    entry, and [open(module_path, 'w')] either raises or the text is
    written. *)
Definition write_back (obj : ImportRenamer) (w : world) (p text : string)
  : result unit * (ImportRenamer * world) :=
  if decide (p ∈ unwritable w) then (Raised (IOError p), (obj, w))
  else (Returned tt, (obj, written w p text)).

(** The entry [_check] appends for a file that [regex] matches. *)
Definition report_entry (module_path source : string) (regex : regex)
    (repl : string) : string :=
  if ImportRenamer.truthy (ImportRenamer._meets_pep8 source regex repl)
  then module_path
  else "pep8: " +:+ module_path.

(** The matcher that decides a file, with its replacement: the
    plain-import one when it matches, the from-import one otherwise. *)
Definition deciding (obj : ImportRenamer) (source : string) : regex * string :=
  if re_search (import_regex obj) source
  then (import_regex obj, import_repl obj)
  else (import_from_regex obj, import_from_repl obj).

(** The entry a visit of [p] appends in the world [w], if any. *)
Definition visit_entry (obj : ImportRenamer) (w : world) (p : string)
  : option string :=
  match files w !! p with
  | None => None
  | Some source =>
      let '(regex, repl) := deciding obj source in
      if re_search regex source then Some (report_entry p source regex repl)
      else None
  end.

(** The test of [_meets_pep8] on one match. *)
Definition too_long (repl g1 : string) : bool :=
  (79 <? String.length (expand repl g1))%nat.

(** The rewritten import statements of a file: the expansion of every
    match of the deciding matcher, each running from the keyword to the
    end of its line. *)
Definition rewritten_statements (obj : ImportRenamer) (source : string)
  : list string :=
  let '(regex, repl) := deciding obj source in
  expand repl <$> re_finditer regex source.

(** A renamer for [M] and [N] in the middle of a run. *)
Definition renamer_at (b : BaseImportWalker) (M N : string) (out : list string)
  : ImportRenamer :=
  Renamer b N (make_import_regexes M).1 (make_import_regexes M).2
          ("from " +:+ N) ("import " +:+ N) out.

Fixpoint str_repeat (n : nat) (c : ascii) : string :=
  match n with
  | 0 => ""
  | S n' => String c (str_repeat n' c)
  end.

(** The tree of the scenario: a plain import of a submodule of [foo], a
    from-import of [foo], and a file that imports nothing. *)
Definition scenario_rt : runtime :=
  flat_runtime [] [("root/*.py", ["root/a.py"; "root/b.py"; "root/c.py"])].

Definition scenario_world : world :=
  world_of [("root/a.py", "import foo.bar");
            ("root/b.py", "from foo import baz");
            ("root/c.py", "x = 1")].

(** The scenario with [root/a.py] readable but not writable. *)
Definition readonly_world : world := read_only ["root/a.py"] scenario_world.

(** An import at the start of its line that is 81 characters long once
    [foo] has become [qux]. *)
Definition long_world : world :=
  world_of [("root/a.py", "import foo." +:+ str_repeat 70 "a")].

(** An import indented by four spaces: the line is 80 characters long
    before and after the renaming of [foo] to [qux], the statement 76. *)
Definition indented_source : string :=
  "    import foo." +:+ str_repeat 65 "a".

Definition indented_world : world :=
  world_of [("root/a.py", indented_source)].

(** [pattern_match M w p]: one of the two matchers for [M] matches the
    content of [p]. *)
Definition pattern_match (M : string) (w : world) (p : string) : bool :=
  match files w !! p with
  | Some source =>
      re_search (make_import_regexes M).1 source
      || re_search (make_import_regexes M).2 source
  | None => false
  end.

(** The renamer [obj] with [out] as its output list. *)
Definition with_output (obj : ImportRenamer) (out : list string) : ImportRenamer :=
  Renamer (renamer_base obj) (new_module_name obj) (import_regex obj)
          (import_from_regex obj) (import_from_repl obj) (import_repl obj) out.

(** The scenario with an import in [root/b.py] that is too long once
    renamed. *)
Definition report_world : world :=
  world_of [("root/a.py", "import foo.bar");
            ("root/b.py", "import foo." +:+ str_repeat 70 "a");
            ("root/c.py", "x = 1")].

(** A file with a plain import and a from-import of [foo]. *)
Definition mixed_rt : runtime :=
  flat_runtime [] [("root/*.py", ["root/m.py"])].

Definition mixed_world : world :=
  world_of [("root/m.py", "import foo" +:+ NL +:+ "from foo import baz")].

(** ** The command-line entry points

    [find_imports_main] and [rename_imports_main] pass a slice of
    [sys.argv] as positional arguments; a call with the wrong number of
    arguments raises [TypeError] before the body of the callee runs. *)

Inductive main_result : Type :=
| Done
| Uncaught (e : exn)
| Uncaught_TypeError.

Definition run_main (c : M world unit) (w : world) : main_result * world :=
  match c w with
  | (Returned _, w') => (Done, w')
  | (Raised e, w') => (Uncaught e, w')
  end.

(** [argv[first:last]] *)
Definition slice {A} (first last : nat) (argv : list A) : list A :=
  take (last - first) (drop first argv).

Definition find_imports_main (rt : runtime) (argv : list string) (w : world)
  : main_result * world :=
  match slice 1 3 argv with
  | [path; module_name] => run_main (find_imports rt path module_name) w
  | _ => (Uncaught_TypeError, w)
  end.

Definition rename_imports_main (rt : runtime) (argv : list string) (w : world)
  : main_result * world :=
  match slice 1 4 argv with
  | [path; module_name; new_module_name] =>
      run_main (rename_imports rt path module_name new_module_name) w
  | _ => (Uncaught_TypeError, w)
  end.

(** ** Further notions used in the statements *)

(** No newline in the text. *)
Fixpoint one_line (s : string) : bool :=
  match s with
  | "" => true
  | String c s' => negb (Ascii.eqb c newline) && one_line s'
  end.

(** No atom of the head matches a newline, and the head is not empty. *)
Definition head_on_one_line (r : regex) : Prop :=
  re_head r <> [] /\ Forall (fun a => atom_matches a newline = false) (re_head r).

(** The world a finder or a renamer leaves differs from [w] at most in
    what was printed. *)
Definition same_disk (w w' : world) : Prop :=
  files w' = files w /\ writes w' = writes w.

(** A file whose only import is [from . import x], inside a [try]. *)
Definition dot_only_source : string :=
  "try:" +:+ NL +:+ "    from . import x" +:+ NL +:+ "except ImportError:" +:+ NL
  +:+ "    pass".

Definition dot_only_tree : node :=
  Node [Node [ImportFrom None [Alias "x" None] 1; Node [Node []]]].

Definition dot_only_rt : runtime :=
  flat_runtime [(dot_only_source, dot_only_tree)] [("pkg/*.py", ["pkg/d.py"])].

Definition dot_only_world : world := world_of [("pkg/d.py", dot_only_source)].

(** The scenario's tree with the syntax trees of its three files. *)
Definition parsed_rt : runtime :=
  flat_runtime
    [("import foo.bar", Node [Import [Alias "foo.bar" None]]);
     ("from foo import baz", Node [ImportFrom (Some "foo") [Alias "baz" None] 0]);
     ("x = 1", Node [Node [Node []; Node []]])]
    [("root/*.py", ["root/a.py"; "root/b.py"; "root/c.py"])].

(** The scenario's tree listing a file that is not there. *)
Definition missing_rt : runtime :=
  flat_runtime [] [("root/*.py", ["root/a.py"; "root/gone.py"; "root/b.py"])].

(** The text the renamer leaves in a file whose content was [source]:
    the substitution by the deciding matcher (the identity when it does
    not match). *)
Definition renamed (obj : ImportRenamer) (source : string) : string :=
  let '(regex, repl) := deciding obj source in
  re_sub regex repl source.

(** [rewrites obj w p]: a visit of [p] in the world [w] writes [p]. *)
Definition rewrites (obj : ImportRenamer) (w : world) (p : string) : bool :=
  match files w !! p with
  | Some source => re_search (deciding obj source).1 source
  | None => false
  end.

(** ** Files on which a second run finds nothing

    The lines of such a file are import statements of the old module,
    each alone on its line after the indentation, and lines that neither
    matcher matches. *)

(** A character of an identifier: a letter, a digit or an underscore. *)
Definition word_char (c : ascii) : bool :=
  ident_char c && negb (Ascii.eqb c "."%char).

(** The text after a module name ends the name: the line ends there, or
    goes on with a character that does not continue an identifier (a dot,
    a space, a comma, ...). *)
Definition boundary (g : string) : bool :=
  match g with
  | "" => true
  | String c _ => negb (word_char c)
  end.

(** [s.endswith(suffix)] *)
Fixpoint ends_with (s suffix : string) : bool :=
  String.eqb s suffix
  || match s with
     | "" => false
     | String _ s' => ends_with s' suffix
     end.

(** The name [n] departs from the pattern [h] at a position that both
    have: neither is read as a prefix of the other. *)
Fixpoint clash (h : list atom) (n : string) : bool :=
  match h, n with
  | a :: h', String c n' => negb (atom_matches a c) || clash h' n'
  | _, _ => false
  end.

(** A space or a tab. *)
Definition blank (c : ascii) : bool :=
  Ascii.eqb c " "%char || Ascii.eqb c "009"%char.

(** The line without its indentation. *)
Fixpoint lstrip (l : string) : string :=
  match l with
  | "" => ""
  | String c l' => if blank c then lstrip l' else l
  end.

(** [import M], the end of the name, and a rest of the line in which
    neither matcher finds anything more. *)
Definition plain_statement (M l : string) : bool :=
  match drop_prefix ("import " +:+ M) l with
  | Some g =>
      one_line g && boundary g
      && negb (re_search (make_import_regexes M).1 g)
      && negb (re_search (make_import_regexes M).2 g)
  | None => false
  end.

(** [from M], the end of the name, and an import clause in which the
    from-import matcher finds nothing more; the plain-import matcher
    finds nothing in the statement. *)
Definition from_statement (M l : string) : bool :=
  match drop_prefix ("from " +:+ M) l with
  | Some g =>
      one_line g && boundary g && import_clause g
      && negb (re_search (make_import_regexes M).2 g)
      && negb (re_search (make_import_regexes M).1 l)
  | None => false
  end.

(** A line that holds one such statement after its indentation. *)
Definition plain_line (M l : string) : bool := plain_statement M (lstrip l).

Definition from_line (M l : string) : bool := from_statement M (lstrip l).

(** A line that neither matcher matches. *)
Definition idle_line (M l : string) : bool :=
  one_line l
  && negb (re_search (make_import_regexes M).1 l)
  && negb (re_search (make_import_regexes M).2 l).

(** Plain imports of [M] and idle lines, or from-imports of [M] and idle
    lines: the file does not mix the two kinds of statement. *)
Definition tidy_lines (M : string) (ls : list string) : bool :=
  forallb (fun l => plain_line M l || idle_line M l) ls
  || forallb (fun l => from_line M l || idle_line M l) ls.

Definition tidy (M source : string) : bool := tidy_lines M (split_lines source).

(** A tree of tidy files for [foo]. *)
Definition tidy_world : world :=
  world_of [("root/a.py",
             "import os" +:+ NL +:+ "import foo.bar" +:+ NL +:+ "try:" +:+ NL
             +:+ "    import foo as f");
            ("root/b.py", "from foo import baz, quux" +:+ NL +:+ "x = 1");
            ("root/c.py", "x = 1")].

(** Files on which a second run is not idle: two statements on a line,
    a from-import of a submodule that imports a name starting with the
    module name, and a submodule whose path repeats a component. *)
Definition two_on_a_line_world : world :=
  world_of [("root/m.py", "import foo; import foo.bar")].

Definition from_and_name_world : world :=
  world_of [("root/m.py", "from foo.a import foo")].

Definition deeper_world : world :=
  world_of [("root/m.py", "import foo.bar.bar")].

(** * Properties *)

(** ** The code on small inputs *)

Example search_import_foo :
  re_search (IMPORT_PATTERN_TEMPLATE "foo")
            ("import os" +:+ NL +:+ "import foo.bar as b" +:+ NL) = true.
Proof. reflexivity. Qed.

Example sub_import_foo :
  re_sub (IMPORT_PATTERN_TEMPLATE "foo") "import qux"
         ("import os" +:+ NL +:+ "import foo.bar as b" +:+ NL +:+ "x = 1" +:+ NL)
  = "import os" +:+ NL +:+ "import qux.bar as b" +:+ NL +:+ "x = 1" +:+ NL.
Proof. reflexivity. Qed.

Example sub_from_foo :
  re_sub (IMPORT_FROM_PATTERN_TEMPLATE "foo") "from qux" "from foo import baz" =
  "from qux import baz"
  /\ re_search (IMPORT_FROM_PATTERN_TEMPLATE "foo") "from foo import " = false
  /\ re_search (IMPORT_FROM_PATTERN_TEMPLATE "foo") "from . import foo" = false.
Proof. repeat split; reflexivity. Qed.

Example dotted_names :
  dotted_name "a.b_c1" = true /\ dotted_name "" = false
  /\ dotted_name "a b" = false.
Proof. repeat split; reflexivity. Qed.

Example plain_matcher_inside_from_import :
  re_sub (IMPORT_PATTERN_TEMPLATE "foo") "import qux" "from . import foo"
  = "from . import qux".
Proof. reflexivity. Qed.

Example dot_is_a_wildcard :
  re_search (IMPORT_PATTERN_TEMPLATE "a.b") "import a_b" = true.
Proof. reflexivity. Qed.

(** The scenario: [a.py] and [b.py] are rewritten and reported clean,
    [c.py] is untouched. *)
Example scenario_rename :
  let w' := (rename_imports scenario_rt "root" "foo" "qux" scenario_world).2 in
  files w' !! "root/a.py" = Some "import qux.bar"
  /\ files w' !! "root/b.py" = Some "from qux import baz"
  /\ files w' !! "root/c.py" = Some "x = 1"
  /\ writes w' = ["root/a.py"; "root/b.py"]
  /\ stdout w' = ["root/a.py" +:+ NL +:+ "root/b.py"].
Proof. vm_compute. repeat split. Qed.

Example base_walker_must_be_overloaded :
  (BaseImportWalker.walk scenario_rt BaseImportWalker.cls "root"
     (BaseImportWalker.init "foo", scenario_world)).1
  = Raised NotImplementedError.
Proof. reflexivity. Qed.

(** ** Strings and patterns *)

Lemma prefix_refl (s : string) : String.prefix s s = true.
Proof.
  induction s as [|c s IH]; simpl; [reflexivity|].
  destruct (Ascii.ascii_dec c c); [assumption | congruence].
Qed.

Lemma prefix_cons (a b : ascii) (p s : string) :
  String.prefix (String a p) (String b s) = true <->
  a = b /\ String.prefix p s = true.
Proof.
  simpl. destruct (Ascii.ascii_dec a b) as [->|Hne]; [tauto|].
  split; [discriminate | intros [? _]; contradiction].
Qed.

Lemma atom_matches_own (c : ascii) :
  atom_matches (if Ascii.eqb c "."%char then Dot else Lit c) c = true.
Proof.
  destruct (Ascii.eqb c ".") eqn:E; simpl.
  - apply Ascii.eqb_eq in E. subst c. reflexivity.
  - apply Ascii.eqb_refl.
Qed.

(** A module name, read as a pattern, matches every text it is a plain
    prefix of. *)
Lemma match_head_atoms_of (m s : string) :
  String.prefix m s = true -> is_Some (match_head (atoms_of m) s).
Proof.
  revert s. induction m as [|c m IH]; intros s H; simpl.
  - eauto.
  - destruct s as [|d s]; [discriminate|].
    apply prefix_cons in H as [<- H].
    rewrite atom_matches_own. auto.
Qed.

Lemma match_head_literal (p : string) (h : list atom) (s : string) :
  match_head (literal p ++ h) (p +:+ s) = match_head h s.
Proof.
  induction p as [|c p IH]; simpl; [reflexivity|].
  rewrite Ascii.eqb_refl. exact IH.
Qed.

Lemma re_search_here (r : regex) (s g : string) :
  match_at r s = Some g -> re_search r s = true.
Proof. intros H. destruct s; simpl; rewrite H; reflexivity. Qed.

Lemma import_regex_prefix (m imported : string) :
  String.prefix m imported = true ->
  re_search (make_import_regexes m).1 ("import " +:+ imported) = true.
Proof.
  intros H. apply match_head_atoms_of in H as [rest H].
  apply re_search_here with (g := line_of rest).
  unfold match_at, make_import_regexes, IMPORT_PATTERN_TEMPLATE. cbn [fst re_head re_group].
  rewrite match_head_literal, H. reflexivity.
Qed.

(** ** The structural checker *)

Lemma node_induction (P : node -> Prop) :
  (forall names, P (Import names)) ->
  (forall module names level, P (ImportFrom module names level)) ->
  (forall children, Forall P children -> P (Node children)) ->
  forall n, P n.
Proof.
  intros HI HF HN. fix IH 1. intros [names|module names level|children].
  - apply HI.
  - apply HF.
  - apply HN. induction children as [|c cs IHcs]; constructor; [apply IH | exact IHcs].
Qed.

Lemma existsb_elements_list_to_set (f : string -> bool) (l : list string) :
  existsb f (elements (list_to_set l : gset string)) = existsb f l.
Proof.
  apply eq_true_iff_eq. rewrite !existsb_exists.
  split; intros (x & Hx & Hf); exists x; split; try assumption.
  - apply list_elem_of_In in Hx. apply elem_of_elements, elem_of_list_to_set in Hx.
    by apply list_elem_of_In.
  - apply list_elem_of_In. apply elem_of_elements, elem_of_list_to_set.
    by apply list_elem_of_In.
Qed.

Lemma set_import_found_idem (v : ImportCheckerVisitor.t) :
  ImportCheckerVisitor.set_import_found (ImportCheckerVisitor.set_import_found v)
  = ImportCheckerVisitor.set_import_found v.
Proof. reflexivity. Qed.

(** The visitor sets its flag exactly when one of the imported module
    names starts with the module name. *)
Lemma visit_spec (n : node) (v : ImportCheckerVisitor.t) :
  ImportCheckerVisitor.visit n v =
  if existsb (fun m => startswith m (ImportCheckerVisitor.module_name v))
             (imported_modules n)
  then ImportCheckerVisitor.set_import_found v else v.
Proof.
  revert v. induction n as [names|module names level|children IH] using node_induction;
    intros v; simpl.
  - unfold ImportCheckerVisitor.visit_Import.
    rewrite existsb_elements_list_to_set. reflexivity.
  - destruct module as [m|]; simpl; [|reflexivity].
    rewrite orb_false_r. reflexivity.
  - revert v. induction IH as [|c cs Hc _ IHcs]; intros v; simpl; [reflexivity|].
    rewrite existsb_app, IHcs, Hc.
    destruct (existsb _ (imported_modules c)); simpl; [|reflexivity].
    destruct (existsb _ _); reflexivity.
Qed.

Lemma imports_module_spec (rt : runtime) (w : world)
    (path source module_name : string) (root : node) :
  files w !! path = Some source ->
  ast_parse rt source = Some root ->
  imports_module rt path module_name w =
  (Returned (existsb (fun m => startswith m module_name) (imported_modules root)), w).
Proof.
  intros Hf Hp. unfold imports_module, bind, read_file, ret.
  rewrite Hf, Hp, visit_spec. simpl.
  destruct (existsb _ _); reflexivity.
Qed.

Lemma imports_module_unparsable (rt : runtime) (w : world)
    (path source module_name : string) :
  files w !! path = Some source ->
  ast_parse rt source = None ->
  imports_module rt path module_name w = (Raised SyntaxError, w).
Proof.
  intros Hf Hp. unfold imports_module, bind, read_file, raise.
  rewrite Hf, Hp. reflexivity.
Qed.

Lemma imports_module_unreadable (rt : runtime) (w : world)
    (path module_name : string) :
  files w !! path = None ->
  imports_module rt path module_name w = (Raised (IOError path), w).
Proof.
  intros Hf. unfold imports_module, bind, read_file. rewrite Hf. reflexivity.
Qed.

(** C1, as stated, fails: a file holding only [import Mother] is reported
    for the module [M] by [imports_module] and by the plain-import
    matcher, although no imported name is [M] or starts with [M.]. *)
Lemma import_Mother_reported_for_M :
  (imports_module mother_rt "root/m.py" "M" mother_world).1 = Returned true
  /\ re_search (make_import_regexes "M").1 mother_source = true
  /\ ~ (exists m, m ∈ imported_modules mother_tree /\ submodule_match "M" m).
Proof.
  split; [reflexivity|]. split; [reflexivity|].
  intros (m & Hm & Hs). simpl in Hm.
  apply list_elem_of_singleton in Hm. subst m.
  destruct Hs as [Hs|Hs]; discriminate Hs.
Qed.

(** C1, amended: a file is reported by [imports_module] as importing [M]
    exactly when some imported name, or from-import source module, starts
    with [M] as a plain string prefix, no separator being required after
    it; and the plain-import matcher built for [M] matches the text
    [import X] for every [X] that starts with [M]. *)
Theorem imports_module_plain_prefix (rt : runtime) (w : world)
    (path source M : string) (root : node) :
  dotted_name M = true ->
  files w !! path = Some source ->
  ast_parse rt source = Some root ->
  ((imports_module rt path M w).1 = Returned true <->
   exists m, m ∈ imported_modules root /\ String.prefix M m = true)
  /\ (forall X, String.prefix M X = true ->
        re_search (make_import_regexes M).1 ("import " +:+ X) = true).
Proof.
  intros _ Hf Hp. split; [|apply import_regex_prefix].
  rewrite (imports_module_spec rt w path source M root Hf Hp). simpl.
  split.
  - intros [= H]. apply existsb_exists in H as (m & Hin & Hm).
    exists m. split; [by apply list_elem_of_In | exact Hm].
  - intros (m & Hin & Hm). f_equal. apply existsb_exists.
    exists m. split; [by apply list_elem_of_In | exact Hm].
Qed.

Lemma imports_module_plain_prefix_witness :
  ((imports_module mother_rt "root/m.py" "M" mother_world).1 = Returned true <->
   exists m, m ∈ imported_modules mother_tree /\ String.prefix "M" m = true)
  /\ (forall X, String.prefix "M" X = true ->
        re_search (make_import_regexes "M").1 ("import " +:+ X) = true).
Proof.
  apply (imports_module_plain_prefix mother_rt mother_world "root/m.py"
           mother_source "M" mother_tree); reflexivity.
Defined.

(** C10: [visit_ImportFrom] leaves the visitor untouched when the node has
    no module name, whatever the level; with a module name the level plays
    no part; and a file holding only a from-import of [sub] at any level,
    as [from .sub import x] is, is reported by [imports_module] as
    importing [sub]. *)
Theorem from_import_level_ignored (rt : runtime) (w : world)
    (path source sub : string) (names : list alias) (level : nat) :
  files w !! path = Some source ->
  ast_parse rt source = Some (Node [ImportFrom (Some sub) names level]) ->
  (forall v names' level',
     ImportCheckerVisitor.visit_ImportFrom v None names' level' = v)
  /\ (forall v m names' level',
        ImportCheckerVisitor.visit_ImportFrom v (Some m) names' level' =
        ImportCheckerVisitor.visit_ImportFrom v (Some m) names' 0)
  /\ (forall M, (imports_module rt path M w).1 = Returned (startswith sub M))
  /\ imports_module rt path sub w = (Returned true, w).
Proof.
  intros Hf Hp. split; [reflexivity|]. split; [reflexivity|].
  split; [intros M|];
    rewrite (imports_module_spec rt w path source _ _ Hf Hp); simpl.
  - by rewrite !orb_false_r.
  - unfold startswith. by rewrite prefix_refl.
Qed.

Lemma from_import_level_ignored_witness :
  (forall v names' level',
     ImportCheckerVisitor.visit_ImportFrom v None names' level' = v)
  /\ (forall v m names' level',
        ImportCheckerVisitor.visit_ImportFrom v (Some m) names' level' =
        ImportCheckerVisitor.visit_ImportFrom v (Some m) names' 0)
  /\ (forall M, (imports_module relative_rt "pkg/r.py" M relative_world).1
                = Returned (startswith "sub" M))
  /\ imports_module relative_rt "pkg/r.py" "sub" relative_world
     = (Returned true, relative_world).
Proof.
  apply (from_import_level_ignored relative_rt relative_world "pkg/r.py"
           relative_source "sub" [Alias "x" None] 1); reflexivity.
Defined.

(** ** Loops and the walk *)

Lemma for_each_app {S A} (body : A -> M S unit) (l1 l2 : list A) (s : S) :
  for_each body (l1 ++ l2) s = (for_each body l1 >> for_each body l2) s.
Proof.
  revert s. induction l1 as [|x l1 IH]; intros s; simpl.
  - reflexivity.
  - unfold bind. destruct (body x s) as [[[]|e] s']; [|reflexivity].
    rewrite IH. reflexivity.
Qed.

Lemma for_each_flatten {S A B} (body : B -> M S unit) (g : A -> list B)
    (l : list A) (s : S) :
  for_each (fun x => for_each body (g x)) l s = for_each body (x ← l; g x) s.
Proof.
  revert s. induction l as [|x l IH]; intros s; simpl; [reflexivity|].
  rewrite for_each_app. unfold bind.
  destruct (for_each body (g x) s) as [[[]|e] s']; [apply IH | reflexivity].
Qed.

Lemma for_each_invariant {S A} (I : S -> Prop) (body : A -> M S unit)
    (l : list A) (s : S) :
  (forall x s, I s -> I (body x s).2) -> I s -> I (for_each body l s).2.
Proof.
  intros Hbody. revert s. induction l as [|x l IH]; intros s Hs; simpl; [exact Hs|].
  unfold bind. specialize (Hbody x s Hs).
  destruct (body x s) as [[[]|e] s']; simpl in *; auto.
Qed.

Lemma for_each_ext {S A} (f g : A -> M S unit) (l : list A) (s : S) :
  (forall x s, f x s = g x s) -> for_each f l s = for_each g l s.
Proof.
  intros H. revert s. induction l as [|x l IH]; intros s; simpl; [reflexivity|].
  unfold bind. rewrite H. destruct (g x s) as [[[]|e] s']; auto.
Qed.

(** [walk] visits the candidates in order, once the class keeps the base
    part of its objects across [_visit_module]. *)
Lemma walk_candidates {W} (rt : runtime) (cls : Walker W) (root : string)
    (obj : W) (w : world) :
  (forall p s, base cls (_visit_module cls p s).2.1 = base cls s.1) ->
  (forall b o, base cls (with_base cls b o) = b) ->
  BaseImportWalker.walk rt cls root (obj, w) =
  for_each (_visit_module cls) (candidates rt (globs (base cls obj)) root)
    (with_base cls (Base (module_name (base cls obj)) (Some root)
                         (globs (base cls obj))) obj, w).
Proof.
  intros Hvisit Hbase. unfold BaseImportWalker.walk, candidates, bind, update. simpl.
  set (G := globs (base cls obj)).
  set (s0 := (with_base cls _ obj, w)).
  assert (HG : globs (base cls s0.1) = G) by (subst s0; simpl; by rewrite Hbase).
  clearbody s0. revert s0 HG.
  induction (os_path_walk rt root) as [|d ds IH]; intros s HG; simpl; [reflexivity|].
  rewrite for_each_app. unfold bind.
  assert (Hd : BaseImportWalker._visit_path rt cls d s =
               for_each (_visit_module cls)
                 (glob_pattern ← os_path_join rt d <$> G; glob_glob rt glob_pattern) s).
  { unfold BaseImportWalker._visit_path, bind, self. rewrite HG.
    apply for_each_flatten. }
  rewrite Hd.
  assert (HG' : globs (base cls (for_each (_visit_module cls)
            (glob_pattern ← os_path_join rt d <$> G; glob_glob rt glob_pattern) s).2.1) = G).
  { apply (for_each_invariant (fun s => globs (base cls s.1) = G)); [|exact HG].
    intros p s' Hs'. by rewrite Hvisit. }
  destruct (for_each _ _ s) as [[[]|e] s']; [|reflexivity].
  apply IH. exact HG'.
Qed.

(** ** The structural finder *)

Lemma ImportFinderAST_visit (rt : runtime) (p : string)
    (obj : CollectingImportWalker) (w : world) :
  ImportFinderAST._visit_module rt p (obj, w) =
  match imports_module rt p (module_name (collecting_base obj)) w with
  | (Returned true, w') => (Returned tt, (CollectingImportWalker.add p obj, w'))
  | (Returned false, w') => (Returned tt, (obj, w'))
  | (Raised e, w') => (Raised e, (obj, w'))
  end.
Proof.
  unfold ImportFinderAST._visit_module, bind, self, io. simpl.
  destruct (imports_module rt p _ w) as [[[]|e] w']; reflexivity.
Qed.

Lemma imports_module_world (rt : runtime) (p M : string) (w : world) :
  (imports_module rt p M w).2 = w.
Proof.
  unfold imports_module, bind, read_file.
  destruct (files w !! p) as [src|]; [|reflexivity].
  destruct (ast_parse rt src); reflexivity.
Qed.

Lemma ImportFinderAST_base (rt : runtime) p s :
  base (ImportFinderAST.cls rt) (_visit_module (ImportFinderAST.cls rt) p s).2.1
  = base (ImportFinderAST.cls rt) s.1.
Proof.
  destruct s as [obj w]. simpl. rewrite ImportFinderAST_visit.
  destruct (imports_module rt p _ w) as [[[]|e] w']; reflexivity.
Qed.

(** The files that parse, visited in order from any state. *)
Lemma ImportFinderAST_parsed_prefix (rt : runtime) (pre : list string)
    (b : BaseImportWalker) (found : gset string) (w : world) :
  Forall (fun p => exists src tree,
            files w !! p = Some src /\ ast_parse rt src = Some tree) pre ->
  for_each (ImportFinderAST._visit_module rt) pre (Collecting b found, w) =
  (Returned tt,
   (Collecting b (list_to_set (List.filter (imports rt w (module_name b)) pre) ∪ found), w)).
Proof.
  intros H. revert found. induction H as [|p pre (src & tree & Hf & Hp) _ IH];
    intros found; simpl.
  - by rewrite (left_id_L ∅ (∪)).
  - assert (Hi : imports rt w (module_name b) p =
                 existsb (fun m => startswith m (module_name b)) (imported_modules tree)).
    { unfold imports. rewrite (imports_module_spec rt w p src _ tree Hf Hp). simpl.
      by destruct (existsb _ _). }
    rewrite Hi. unfold bind. rewrite ImportFinderAST_visit.
    rewrite (imports_module_spec rt w p src _ tree Hf Hp). simpl.
    destruct (existsb _ _); simpl.
    + unfold CollectingImportWalker.add. simpl. rewrite IH.
      do 3 f_equal. rewrite ?list_to_set_cons.
      generalize (list_to_set (List.filter (imports rt w (module_name b)) pre) : gset string).
      intros X. rewrite (comm_L (∪) {[p]} X), <- (assoc_L (∪)). reflexivity.
    + apply IH.
Qed.

(** C2, as stated, fails: with [root/b.py] unparsable the walk of the
    structural finder ends in [SyntaxError] on it; [root/c.py], which
    imports [foo] and comes after it, never reaches the result set. *)
Lemma parse_failure_aborts_structural_walk :
  let r := BaseImportWalker.walk broken_rt (ImportFinderAST.cls broken_rt) "root"
             (CollectingImportWalker.init "foo", broken_world) in
  r.1 = Raised SyntaxError
  /\ imports broken_rt broken_world "foo" "root/c.py" = true
  /\ "root/c.py" ∉ found_modules r.2.1.
Proof.
  split; [reflexivity|]. split; [reflexivity|].
  vm_compute. intros H. discriminate H.
Qed.

(** C2, amended: a file whose source fails to parse stops the walk of the
    structural finder.  [SyntaxError] leaves [walk], the files enumerated
    after it are not visited, and the result set holds the importing files
    among those visited before it. *)
Theorem structural_walk_stops_at_parse_failure (rt : runtime) (w : world)
    (root M bad source : string) (pre post : list string) :
  candidates rt (globs (BaseImportWalker.init M)) root = (pre ++ bad :: post)%list ->
  Forall (fun p => exists src tree,
            files w !! p = Some src /\ ast_parse rt src = Some tree) pre ->
  files w !! bad = Some source ->
  ast_parse rt source = None ->
  BaseImportWalker.walk rt (ImportFinderAST.cls rt) root
    (CollectingImportWalker.init M, w) =
  (Raised SyntaxError,
   (Collecting (Base M (Some root) (globs (BaseImportWalker.init M)))
               (list_to_set (List.filter (imports rt w M) pre)), w)).
Proof.
  intros Hc Hpre Hf Hp.
  rewrite walk_candidates;
    [| apply ImportFinderAST_base | reflexivity].
  simpl base. simpl globs in *. simpl module_name.
  unfold BaseImportWalker.init in Hc. simpl in Hc. rewrite Hc.
  rewrite for_each_app. unfold bind. simpl with_base.
  change (_visit_module (ImportFinderAST.cls rt)) with (ImportFinderAST._visit_module rt).
  rewrite (ImportFinderAST_parsed_prefix rt pre _ _ w Hpre). simpl.
  unfold bind. rewrite ImportFinderAST_visit. simpl.
  rewrite (imports_module_unparsable rt w bad source M Hf Hp).
  by rewrite (right_id_L ∅ (∪)).
Qed.

Lemma structural_walk_stops_at_parse_failure_witness :
  BaseImportWalker.walk broken_rt (ImportFinderAST.cls broken_rt) "root"
    (CollectingImportWalker.init "foo", broken_world) =
  (Raised SyntaxError,
   (Collecting (Base "foo" (Some "root") (globs (BaseImportWalker.init "foo")))
               (list_to_set (List.filter (imports broken_rt broken_world "foo")
                                         ["root/a.py"])),
    broken_world)).
Proof.
  apply (structural_walk_stops_at_parse_failure broken_rt broken_world
           "root" "foo" "root/b.py" "import (" ["root/a.py"] ["root/c.py"]).
  - reflexivity.
  - repeat constructor.
    exists "import foo.bar", (Node [Import [Alias "foo.bar" None]]).
    split; reflexivity.
  - reflexivity.
  - reflexivity.
Defined.

(** ** The renamer on one file *)

Lemma check_spec (p source : string) (regex : regex) (repl : string)
    (obj : ImportRenamer) (w : world) :
  ImportRenamer._check p source regex repl (obj, w) =
  if re_search regex source
  then (Returned (Some (re_sub regex repl source)),
        (ImportRenamer.output_append (report_entry p source regex repl) obj, w))
  else (Returned None, (obj, w)).
Proof.
  unfold ImportRenamer._check. destruct (re_search regex source); reflexivity.
Qed.

(** One visit, in full: the entry is appended before the file is opened
    for writing. *)
Lemma renamer_visit (p : string) (obj : ImportRenamer) (w : world) :
  ImportRenamer._visit_module p (obj, w) =
  match files w !! p with
  | None => (Raised (IOError p), (obj, w))
  | Some source =>
      let '(regex, repl) := deciding obj source in
      if re_search regex source
      then write_back
             (ImportRenamer.output_append (report_entry p source regex repl) obj)
             w p (re_sub regex repl source)
      else (Returned tt, (obj, w))
  end.
Proof.
  unfold ImportRenamer._visit_module, bind, io, read_file. simpl.
  destruct (files w !! p) as [source|]; [|reflexivity].
  unfold ImportRenamer._check_import, ImportRenamer._check_import_from, bind, self.
  simpl. rewrite check_spec. unfold deciding, write_back, write_file, written.
  destruct (re_search (import_regex obj) source) eqn:E1.
  - rewrite E1. simpl. by destruct (decide (p ∈ unwritable w)).
  - simpl. rewrite check_spec.
    destruct (re_search (import_from_regex obj) source); [|reflexivity].
    simpl. by destruct (decide (p ∈ unwritable w)).
Qed.

Lemma write_back_writable (obj : ImportRenamer) (w : world) (p text : string) :
  p ∉ unwritable w ->
  write_back obj w p text = (Returned tt, (obj, written w p text)).
Proof. intros H. unfold write_back. by destruct (decide (p ∈ unwritable w)). Qed.

Lemma write_back_unwritable (obj : ImportRenamer) (w : world) (p text : string) :
  p ∈ unwritable w ->
  write_back obj w p text = (Raised (IOError p), (obj, w)).
Proof. intros H. unfold write_back. by destruct (decide (p ∈ unwritable w)). Qed.

Lemma report_entry_cases (p source : string) (regex : regex) (repl : string) :
  report_entry p source regex repl = p \/
  report_entry p source regex repl = "pep8: " +:+ p.
Proof. unfold report_entry. destruct (ImportRenamer.truthy _); auto. Qed.

Lemma deciding_matches (obj : ImportRenamer) (source : string) :
  re_search (deciding obj source).1 source =
  re_search (import_regex obj) source || re_search (import_from_regex obj) source.
Proof.
  unfold deciding. destruct (re_search (import_regex obj) source) eqn:E; simpl; auto.
Qed.

(** C5, as stated, fails: [root/a.py] holds an import of [foo] and cannot
    be opened for writing; the visit ends in [IOError] and the file keeps
    its content. *)
Lemma read_only_match_not_persisted :
  let obj := ImportRenamer.init "foo" "qux" in
  let r := ImportRenamer._visit_module "root/a.py" (obj, readonly_world) in
  files readonly_world !! "root/a.py" = Some "import foo.bar"
  /\ re_search (import_regex obj) "import foo.bar" = true
  /\ r.1 = Raised (IOError "root/a.py")
  /\ files r.2.2 !! "root/a.py" = Some "import foo.bar"
  /\ writes r.2.2 = [].
Proof. vm_compute. repeat split. Qed.

(** C5, amended: a file that a matcher matches and that can be opened for
    writing is rewritten and written back whatever the style check says.
    The text written is the substitution by the deciding matcher, and the
    check only decides between the two forms of the report entry: it is
    tagged exactly when [_meets_pep8] is not [True]. *)
Theorem rewrite_persisted_despite_style (obj : ImportRenamer) (w : world)
    (p source : string) :
  files w !! p = Some source ->
  p ∉ unwritable w ->
  re_search (import_regex obj) source || re_search (import_from_regex obj) source
    = true ->
  let regex := (deciding obj source).1 in
  let repl := (deciding obj source).2 in
  exists entry,
    ImportRenamer._visit_module p (obj, w) =
      (Returned tt,
       (ImportRenamer.output_append entry obj,
        written w p (re_sub regex repl source)))
    /\ (ImportRenamer._meets_pep8 source regex repl = Some true -> entry = p)
    /\ (ImportRenamer._meets_pep8 source regex repl <> Some true ->
        entry = "pep8: " +:+ p).
Proof.
  intros Hf Hw Hm regex repl. rewrite <- deciding_matches in Hm.
  exists (report_entry p source regex repl).
  rewrite renamer_visit, Hf. subst regex repl.
  destruct (deciding obj source) as [regex repl]. simpl in *. rewrite Hm.
  split; [by apply write_back_writable|]. unfold report_entry.
  split; intros H.
  - rewrite H. reflexivity.
  - destruct (ImportRenamer._meets_pep8 source regex repl) as [[]|]; simpl;
      [congruence | reflexivity | reflexivity].
Qed.

Lemma rewrite_persisted_despite_style_witness :
  exists entry,
    ImportRenamer._visit_module "root/a.py"
      (ImportRenamer.init "foo" "qux", long_world) =
      (Returned tt,
       (ImportRenamer.output_append entry (ImportRenamer.init "foo" "qux"),
        written long_world "root/a.py"
          (re_sub (IMPORT_PATTERN_TEMPLATE "foo") "import qux"
                  ("import foo." +:+ str_repeat 70 "a"))))
    /\ (ImportRenamer._meets_pep8 ("import foo." +:+ str_repeat 70 "a")
          (IMPORT_PATTERN_TEMPLATE "foo") "import qux" = Some true ->
        entry = "root/a.py")
    /\ (ImportRenamer._meets_pep8 ("import foo." +:+ str_repeat 70 "a")
          (IMPORT_PATTERN_TEMPLATE "foo") "import qux" <> Some true ->
        entry = "pep8: root/a.py").
Proof.
  apply (rewrite_persisted_despite_style (ImportRenamer.init "foo" "qux")
           long_world "root/a.py" ("import foo." +:+ str_repeat 70 "a")).
  - reflexivity.
  - vm_compute. intros H. discriminate H.
  - reflexivity.
Defined.

(** C6: the plain-import matcher decides a file whenever it matches: the
    entry and the text to write come from it alone.  The from-import
    matcher decides only when the plain one finds nothing.  A file that
    neither matches is left as it is, with no report entry.  In the first
    two cases the visit ends with the write, which raises on a file that
    cannot be opened for writing. *)
Theorem plain_import_matcher_first (obj : ImportRenamer) (w : world)
    (p source : string) :
  files w !! p = Some source ->
  (re_search (import_regex obj) source = true ->
   ImportRenamer._visit_module p (obj, w) =
   write_back
     (ImportRenamer.output_append
        (report_entry p source (import_regex obj) (import_repl obj)) obj)
     w p (re_sub (import_regex obj) (import_repl obj) source))
  /\ (re_search (import_regex obj) source = false ->
      re_search (import_from_regex obj) source = true ->
      ImportRenamer._visit_module p (obj, w) =
      write_back
        (ImportRenamer.output_append
           (report_entry p source (import_from_regex obj) (import_from_repl obj))
           obj)
        w p (re_sub (import_from_regex obj) (import_from_repl obj) source))
  /\ (re_search (import_regex obj) source = false ->
      re_search (import_from_regex obj) source = false ->
      ImportRenamer._visit_module p (obj, w) = (Returned tt, (obj, w))).
Proof.
  intros Hf. rewrite renamer_visit, Hf. unfold deciding.
  repeat split.
  - intros H. rewrite H. simpl. rewrite H. reflexivity.
  - intros H1 H2. rewrite H1. simpl. rewrite H2. reflexivity.
  - intros H1 H2. rewrite H1. simpl. rewrite H2. reflexivity.
Qed.

Lemma plain_import_matcher_first_witness :
  ImportRenamer._visit_module "root/b.py"
    (ImportRenamer.init "foo" "qux", scenario_world) =
  write_back
    (ImportRenamer.output_append "root/b.py" (ImportRenamer.init "foo" "qux"))
    scenario_world "root/b.py" "from qux import baz".
Proof.
  apply (plain_import_matcher_first (ImportRenamer.init "foo" "qux")
           scenario_world "root/b.py" "from foo import baz");
    reflexivity.
Defined.

(** C9, as stated, fails: on the read-only [root/a.py] the visit appends
    the entry of the file to the output and then raises; nothing is
    written. *)
Lemma read_only_match_reported_not_written :
  let obj := ImportRenamer.init "foo" "qux" in
  let r := ImportRenamer._visit_module "root/a.py" (obj, readonly_world) in
  output obj = []
  /\ output r.2.1 = ["root/a.py"]
  /\ writes r.2.2 = writes readonly_world
  /\ files r.2.2 = files readonly_world.
Proof. vm_compute. repeat split. Qed.

(** C9, amended: on every visit that returns, either nothing is written
    and nothing is reported, or the file is written once and one entry for
    it is appended to the output. *)
Theorem written_iff_reported (obj : ImportRenamer) (w : world) (p : string) :
  let r := ImportRenamer._visit_module p (obj, w) in
  r.1 = Returned tt ->
  (writes r.2.2 = writes w /\ files r.2.2 = files w /\ output r.2.1 = output obj)
  \/ (exists entry text : string,
        writes r.2.2 = (writes w ++ [p])%list
        /\ files r.2.2 = <[p := text]> (files w)
        /\ output r.2.1 = (output obj ++ [entry])%list
        /\ (entry = p \/ entry = "pep8: " +:+ p)).
Proof.
  simpl. rewrite renamer_visit.
  destruct (files w !! p) as [source|]; [|discriminate].
  destruct (deciding obj source) as [regex repl].
  destruct (re_search regex source); [|left; auto].
  unfold write_back. destruct (decide (p ∈ unwritable w)); [discriminate|].
  intros _. right.
  exists (report_entry p source regex repl), (re_sub regex repl source).
  simpl. repeat split. apply report_entry_cases.
Qed.

Lemma written_iff_reported_witness :
  let r := ImportRenamer._visit_module "root/b.py"
             (ImportRenamer.init "foo" "qux", scenario_world) in
  (writes r.2.2 = writes scenario_world /\ files r.2.2 = files scenario_world
   /\ output r.2.1 = output (ImportRenamer.init "foo" "qux"))
  \/ (exists entry text : string,
        writes r.2.2 = (writes scenario_world ++ ["root/b.py"])%list
        /\ files r.2.2 = <["root/b.py" := text]> (files scenario_world)
        /\ output r.2.1 = (output (ImportRenamer.init "foo" "qux") ++ [entry])%list
        /\ (entry = "root/b.py" \/ entry = "pep8: " +:+ "root/b.py")).
Proof.
  apply (written_iff_reported (ImportRenamer.init "foo" "qux") scenario_world
           "root/b.py").
  reflexivity.
Defined.

(** X22: a visit of a readable file that a matcher matches and that
    cannot be opened for writing ends in the [IOError] for its path,
    after the entry of the file has been appended to the output; the
    world is as it was. *)
Theorem visit_of_read_only_match (obj : ImportRenamer) (w : world)
    (p source : string) :
  files w !! p = Some source ->
  re_search (import_regex obj) source || re_search (import_from_regex obj) source
    = true ->
  p ∈ unwritable w ->
  let regex := (deciding obj source).1 in
  let repl := (deciding obj source).2 in
  ImportRenamer._visit_module p (obj, w) =
  (Raised (IOError p),
   (ImportRenamer.output_append (report_entry p source regex repl) obj, w)).
Proof.
  intros Hf Hm Hro regex repl. rewrite <- deciding_matches in Hm.
  rewrite renamer_visit, Hf. subst regex repl.
  destruct (deciding obj source) as [regex repl]. simpl in *. rewrite Hm.
  by apply write_back_unwritable.
Qed.

Lemma visit_of_read_only_match_witness :
  ImportRenamer._visit_module "root/a.py"
    (ImportRenamer.init "foo" "qux", readonly_world) =
  (Raised (IOError "root/a.py"),
   (ImportRenamer.output_append "root/a.py" (ImportRenamer.init "foo" "qux"),
    readonly_world)).
Proof.
  apply (visit_of_read_only_match (ImportRenamer.init "foo" "qux") readonly_world
           "root/a.py" "import foo.bar").
  - reflexivity.
  - reflexivity.
  - refine (bool_decide_unpack _ _). vm_compute. exact I.
Defined.

(** ** The style check *)

Lemma meets_pep8_loop_spec (repl : string) (matches : list string)
    (retval : option bool) :
  ImportRenamer.meets_pep8_loop repl matches retval =
  if existsb (too_long repl) matches then Some false
  else match matches with
       | [] => retval
       | _ => Some true
       end.
Proof.
  revert retval. induction matches as [|g gs IH]; intros retval; simpl; [reflexivity|].
  unfold too_long at 1. destruct (79 <? _)%nat; simpl; [reflexivity|].
  rewrite IH. destruct (existsb _ gs); [reflexivity|]. by destruct gs.
Qed.

Lemma scan_matched_inside (r : regex) (s : string) :
  re_head r <> [] -> re_search r s = true ->
  exists g, Matched g ∈ scan r false s.
Proof.
  intros Hh. induction s as [|c s IH]; simpl.
  - unfold match_at. destruct (re_head r); [contradiction | discriminate].
  - destruct (match_at r (String c s)) as [g|].
    + intros _. exists g. left.
    + intros H. destruct (IH H) as [g Hg]. exists g. by right.
Qed.

(** A source that a matcher with a non-empty head matches has a match to
    iterate on. *)
Lemma finditer_nonempty (r : regex) (s : string) :
  re_head r <> [] -> re_search r s = true -> re_finditer r s <> [].
Proof.
  intros Hh Hs. destruct (scan_matched_inside r s Hh Hs) as [g Hg].
  unfold re_finditer. intros E.
  assert (Hin : g ∈ omap (fun p => match p with Matched g => Some g
                                        | Unmatched _ => None end) (scan r false s)).
  { apply list_elem_of_omap. exists (Matched g). by split. }
  rewrite E in Hin. by apply not_elem_of_nil in Hin.
Qed.

Lemma report_entry_spec (p source : string) (r : regex) (repl : string) :
  re_head r <> [] -> re_search r source = true ->
  report_entry p source r repl =
  if existsb (too_long repl) (re_finditer r source) then "pep8: " +:+ p else p.
Proof.
  intros Hh Hs. unfold report_entry, ImportRenamer._meets_pep8.
  rewrite meets_pep8_loop_spec.
  destruct (existsb _ _); [reflexivity|].
  pose proof (finditer_nonempty r source Hh Hs) as Hne.
  by destruct (re_finditer r source).
Qed.

Lemma deciding_head (b : BaseImportWalker) (M N : string) (out : list string)
    (source : string) :
  re_head (deciding (renamer_at b M N out) source).1 <> [].
Proof. unfold deciding. by destruct (re_search _ source). Qed.

(** C4: the code departs from the claim on the import below.  It is
    indented by four spaces, so its line is exactly 80 characters long
    after the renaming, and the claim wants the entry tagged.
    [_meets_pep8] measures [match.expand(repl)], the statement from the
    keyword on, which is 76 characters long: the visit writes the line of
    80 characters and the report entry of the file carries no tag. *)
Lemma indented_line_of_80_untagged :
  let obj := ImportRenamer.init "foo" "qux" in
  let r := ImportRenamer._visit_module "root/a.py" (obj, indented_world) in
  r.1 = Returned tt
  /\ (fun text => String.length <$> split_lines text)
       <$> files r.2.2 !! "root/a.py" = Some [80]
  /\ String.length <$> rewritten_statements obj indented_source = [76]
  /\ ImportRenamer._meets_pep8 indented_source (import_regex obj) (import_repl obj)
     = Some true
  /\ output r.2.1 = ["root/a.py"].
Proof. vm_compute. repeat split. Qed.

(** What the tag of an entry depends on: the length of the expansions of
    the matches of the deciding matcher, each running from the keyword to
    the end of its line.  What precedes the keyword on the line is not
    counted. *)
Lemma entry_tag_of_expansions (b : BaseImportWalker) (M N : string)
    (out : list string) (source p : string) :
  let obj := renamer_at b M N out in
  re_search (deciding obj source).1 source = true ->
  report_entry p source (deciding obj source).1 (deciding obj source).2 =
  if existsb (fun stmt => (79 <? String.length stmt)%nat)
             (rewritten_statements obj source)
  then "pep8: " +:+ p else p.
Proof.
  intros obj Hm. unfold rewritten_statements.
  pose proof (deciding_head b M N out source) as Hh. fold obj in Hh.
  destruct (deciding obj source) as [regex repl]. simpl in *.
  rewrite (report_entry_spec p source regex repl Hh Hm).
  assert (E : existsb (fun stmt => (79 <? String.length stmt)%nat)
                (expand repl <$> re_finditer regex source) =
              existsb (too_long repl) (re_finditer regex source)).
  { induction (re_finditer regex source) as [|g gs IH]; simpl; [reflexivity|].
    f_equal. exact IH. }
  by rewrite E.
Qed.

(** ** The order of [sorted] *)

Lemma ascii_compare_lt_trans (a b c : ascii) :
  Ascii.compare a b = Lt -> Ascii.compare b c = Lt -> Ascii.compare a c = Lt.
Proof.
  unfold Ascii.compare. rewrite !N.compare_lt_iff. apply N.lt_trans.
Qed.

Lemma string_compare_lt_trans (s1 s2 s3 : string) :
  String.compare s1 s2 = Lt -> String.compare s2 s3 = Lt ->
  String.compare s1 s3 = Lt.
Proof.
  revert s2 s3. induction s1 as [|a s1 IH]; intros [|b s2] [|c s3]; simpl;
    try discriminate; try reflexivity.
  destruct (Ascii.compare a b) eqn:Eab; try discriminate;
    destruct (Ascii.compare b c) eqn:Ebc; try discriminate; intros H1 H2.
  - apply Ascii.compare_eq_iff in Eab, Ebc. subst.
    assert (E : Ascii.compare c c = Eq)
      by (unfold Ascii.compare; apply N.compare_refl).
    rewrite E. eauto.
  - apply Ascii.compare_eq_iff in Eab. subst. by rewrite Ebc.
  - apply Ascii.compare_eq_iff in Ebc. subst. by rewrite Eab.
  - by rewrite (ascii_compare_lt_trans a b c Eab Ebc).
Qed.

#[local] Instance str_le_trans : Transitive str_le.
Proof.
  intros s1 s2 s3. unfold str_le, String.leb. intros H1 H2.
  destruct (String.compare s1 s2) eqn:E1; try discriminate;
    destruct (String.compare s2 s3) eqn:E2; try discriminate.
  - apply String.compare_eq_iff in E1. subst. by rewrite E2.
  - apply String.compare_eq_iff in E1. subst. by rewrite E2.
  - apply String.compare_eq_iff in E2. subst. by rewrite E1.
  - by rewrite (string_compare_lt_trans s1 s2 s3 E1 E2).
Qed.

#[local] Instance str_le_total : Total str_le.
Proof. intros s1 s2. apply String.leb_total. Qed.

#[local] Instance str_le_antisym : AntiSymm (=) str_le.
Proof. intros s1 s2. apply String.leb_antisym. Qed.

Lemma sorted_Sorted (l : list string) : Sorted str_le (sorted l).
Proof. apply Sorted_merge_sort. apply _. Qed.

Lemma sorted_Permutation (l : list string) : sorted l ≡ₚ l.
Proof. apply merge_sort_Permutation. Qed.

(** The result of [sorted] depends on the members of the list only. *)
Lemma sorted_order_irrelevant (l1 l2 : list string) :
  l1 ≡ₚ l2 -> sorted l1 = sorted l2.
Proof.
  intros H. apply (Sorted_unique str_le); try apply sorted_Sorted.
  by rewrite !sorted_Permutation.
Qed.

(** ** The pattern-based finder *)

Lemma ImportFinderRE_visit (p : string) (obj : ImportFinderRE) (w : world) :
  ImportFinderRE._visit_module p (obj, w) =
  match files w !! p with
  | None => (Raised (IOError p), (obj, w))
  | Some source =>
      if re_search (finder_import_regex obj) source
         || re_search (finder_import_from_regex obj) source
      then (Returned tt, (ImportFinderRE.add p obj, w))
      else (Returned tt, (obj, w))
  end.
Proof.
  unfold ImportFinderRE._visit_module, bind, io, read_file, self. simpl.
  destruct (files w !! p) as [source|]; [|reflexivity].
  simpl. destruct (re_search (finder_import_regex obj) source); [reflexivity|].
  simpl. destruct (re_search (finder_import_from_regex obj) source); reflexivity.
Qed.

Lemma ImportFinderRE_base p s :
  base ImportFinderRE.cls (_visit_module ImportFinderRE.cls p s).2.1
  = base ImportFinderRE.cls s.1.
Proof.
  destruct s as [obj w]. simpl. rewrite ImportFinderRE_visit.
  destruct (files w !! p) as [source|]; [|reflexivity].
  destruct (_ || _); reflexivity.
Qed.

(** A walk of the pattern-based finder that returns has changed nothing
    but the result set, to which the matching candidates were added. *)
Lemma ImportFinderRE_run (M : string) (l : list string)
    (b : BaseImportWalker) (found : gset string) (w : world) s' :
  for_each ImportFinderRE._visit_module l
    (FinderRE (Collecting b found) (make_import_regexes M).1
              (make_import_regexes M).2, w) = (Returned tt, s') ->
  s' = (FinderRE (Collecting b (list_to_set (List.filter (pattern_match M w) l) ∪ found))
                 (make_import_regexes M).1 (make_import_regexes M).2, w).
Proof.
  revert found. induction l as [|p l IH]; intros found; simpl.
  - intros [= <-]. by rewrite (left_id_L ∅ (∪)).
  - unfold bind. rewrite ImportFinderRE_visit. unfold pattern_match at 1.
    destruct (files w !! p) as [source|]; [|discriminate].
    cbn [finder_import_regex finder_import_from_regex].
    destruct (_ || _).
    + intros H. apply IH in H. rewrite H. do 3 f_equal.
      rewrite ?list_to_set_cons. cbn [found_modules finder_collecting ImportFinderRE.add
        CollectingImportWalker.add].
      generalize (list_to_set (List.filter (pattern_match M w) l) : gset string).
      intros X. rewrite (comm_L (∪) {[p]} X), <- (assoc_L (∪)). reflexivity.
    + apply IH.
Qed.

Lemma collect_relpath (rt : runtime) (root : string) (l : list string) :
  collect (CollectingImportWalker.relpath_from rt (Some root)) l =
  Returned ((fun p => os_path_relpath rt p root) <$> l).
Proof. induction l as [|p l IH]; simpl; [reflexivity|]. by rewrite IH. Qed.

(** [__str__] on any collecting walker that has walked [root], the
    structural finder included: the same text for every order in which
    the result set is iterated. *)
Lemma collecting_str_order_irrelevant (rt : runtime)
    (obj : CollectingImportWalker) (root : string) (iteration : list string) :
  path (collecting_base obj) = Some root ->
  iteration ≡ₚ elements (found_modules obj) ->
  CollectingImportWalker.str_in_order rt (Some root) iteration
  = CollectingImportWalker.__str__ rt obj
  /\ CollectingImportWalker.__str__ rt obj
     = Returned (join_lines (sorted ((fun p => os_path_relpath rt p root)
                                       <$> elements (found_modules obj)))).
Proof.
  intros Hp Hperm.
  unfold CollectingImportWalker.__str__, CollectingImportWalker.str_in_order.
  rewrite Hp, !collect_relpath. split; [|reflexivity].
  do 2 f_equal. apply sorted_order_irrelevant. by rewrite Hperm.
Qed.

(** C7: what [find_imports] prints is the found paths made relative to
    the walked root, sorted and joined by newlines, whatever the order in
    which the result set is iterated. *)
Theorem finder_rendering (rt : runtime) (root M : string) (w w' : world) :
  dotted_name M = true ->
  find_imports rt root M w = (Returned tt, w') ->
  let found : gset string :=
    list_to_set (List.filter (pattern_match M w)
                   (candidates rt (globs (BaseImportWalker.init M)) root)) in
  forall iteration : list string,
    iteration ≡ₚ elements found ->
    let lines := sorted ((fun p => os_path_relpath rt p root) <$> iteration) in
    stdout w' = (stdout w ++ [join_lines lines])%list
    /\ Sorted str_le lines
    /\ lines ≡ₚ (fun p => os_path_relpath rt p root) <$> elements found.
Proof.
  intros _ Hrun found iteration Hperm lines.
  assert (Hl : lines = sorted ((fun p => os_path_relpath rt p root) <$> elements found)).
  { apply sorted_order_irrelevant. by rewrite Hperm. }
  split; [|split; [apply sorted_Sorted | rewrite Hl; apply sorted_Permutation]].
  rewrite Hl. clear Hl lines Hperm iteration.
  unfold find_imports, with_object, bind in Hrun.
  rewrite walk_candidates in Hrun; [| apply ImportFinderRE_base | reflexivity].
  simpl in Hrun.
  destruct (for_each ImportFinderRE._visit_module _ _) as [[[]|e] s'] eqn:E.
  - apply (ImportFinderRE_run M) in E. subst s'. simpl in Hrun.
    unfold CollectingImportWalker.__str__, CollectingImportWalker.str_in_order in Hrun.
    simpl in Hrun. rewrite collect_relpath in Hrun. simpl in Hrun.
    injection Hrun as <-. simpl. by rewrite (right_id_L ∅ (∪)).
  - destruct s'. discriminate Hrun.
Qed.

Lemma finder_rendering_witness :
  let w' := (find_imports scenario_rt "root" "foo" scenario_world).2 in
  let lines := sorted ((fun p => os_path_relpath scenario_rt p "root")
                         <$> ["root/b.py"; "root/a.py"]) in
  stdout w' = (stdout scenario_world ++ [join_lines lines])%list
  /\ Sorted str_le lines
  /\ lines ≡ₚ (fun p => os_path_relpath scenario_rt p "root")
              <$> elements (list_to_set
                    (List.filter (pattern_match "foo" scenario_world)
                       (candidates scenario_rt
                          (globs (BaseImportWalker.init "foo")) "root"))
                    : gset string).
Proof.
  intros w' lines.
  apply (finder_rendering scenario_rt "root" "foo" scenario_world w').
  - reflexivity.
  - reflexivity.
  - vm_compute. first [reflexivity | apply perm_swap].
Defined.

Example scenario_find_output :
  stdout (find_imports scenario_rt "root" "foo" scenario_world).2
  = ["a.py" +:+ NL +:+ "b.py"].
Proof. reflexivity. Qed.

(** * More on the checker, the finders and the substitution *)

(** ** The structural checker *)

(** X1: the flag of the visitor after a tree is the logical or of the
    flag before it and of the prefix test on every imported module of the
    tree, at any depth; the module name of the visitor never changes. *)
Theorem checker_flag_is_disjunction (n : node) (v : ImportCheckerVisitor.t) :
  ImportCheckerVisitor.module_name (ImportCheckerVisitor.visit n v)
  = ImportCheckerVisitor.module_name v
  /\ ImportCheckerVisitor.import_found (ImportCheckerVisitor.visit n v)
     = ImportCheckerVisitor.import_found v
       || existsb (fun m => startswith m (ImportCheckerVisitor.module_name v))
                  (imported_modules n).
Proof.
  rewrite visit_spec. destruct (existsb _ _); simpl.
  - by rewrite orb_true_r.
  - by rewrite orb_false_r.
Qed.

(** X2: with the empty string as the module name every imported module
    passes the prefix test, so a file is reported exactly when it has an
    import with a module name at all. *)
Theorem empty_module_name_matches_any_import (rt : runtime) (w : world)
    (path source : string) (root : node) :
  files w !! path = Some source ->
  ast_parse rt source = Some root ->
  imports_module rt path "" w
  = (Returned (match imported_modules root with [] => false | _ => true end), w).
Proof.
  intros Hf Hp. rewrite (imports_module_spec rt w path source "" root Hf Hp).
  do 2 f_equal. destruct (imported_modules root) as [|m ms]; [reflexivity|].
  simpl. unfold startswith. by destruct m.
Qed.

Lemma empty_module_name_matches_any_import_witness :
  imports_module mother_rt "root/m.py" "" mother_world
  = (Returned (match imported_modules mother_tree with [] => false | _ => true end),
     mother_world).
Proof.
  apply (empty_module_name_matches_any_import mother_rt mother_world "root/m.py"
           mother_source mother_tree); reflexivity.
Defined.

(** X3: a file whose only imports are from-imports without a module name
    ([from . import x]), wherever they stand in the tree, is reported for
    no module name at all. *)
Theorem relative_only_file_never_reported (rt : runtime) (w : world)
    (path source M : string) (root : node) :
  files w !! path = Some source ->
  ast_parse rt source = Some root ->
  imported_modules root = [] ->
  imports_module rt path M w = (Returned false, w).
Proof.
  intros Hf Hp Hn. rewrite (imports_module_spec rt w path source M root Hf Hp).
  by rewrite Hn.
Qed.

Lemma imports_module_value (rt : runtime) (w : world) (p M : string) :
  (imports_module rt p M w).1 =
  match files w !! p with
  | None => Raised (IOError p)
  | Some source =>
      match ast_parse rt source with
      | None => Raised SyntaxError
      | Some root =>
          Returned (existsb (fun m => startswith m M) (imported_modules root))
      end
  end.
Proof.
  destruct (files w !! p) as [source|] eqn:Hf.
  - destruct (ast_parse rt source) as [root|] eqn:Hp.
    + by rewrite (imports_module_spec rt w p source M root Hf Hp).
    + by rewrite (imports_module_unparsable rt w p source M Hf Hp).
  - by rewrite (imports_module_unreadable rt w p M Hf).
Qed.

(** X4: [imports_module] raises [IOError] on a file it cannot read and
    [SyntaxError] on one that does not parse, returns the prefix test
    otherwise, and leaves the world as it was in all three cases. *)
Theorem imports_module_outcomes (rt : runtime) (w : world) (p M : string) :
  (imports_module rt p M w).2 = w
  /\ (imports_module rt p M w).1 =
     match files w !! p with
     | None => Raised (IOError p)
     | Some source =>
         match ast_parse rt source with
         | None => Raised SyntaxError
         | Some root =>
             Returned (existsb (fun m => startswith m M) (imported_modules root))
         end
     end.
Proof.
  split.
  - unfold imports_module, bind, read_file.
    destruct (files w !! p) as [source|]; [|reflexivity].
    destruct (ast_parse rt source); reflexivity.
  - destruct (files w !! p) as [source|] eqn:Hf.
    + destruct (ast_parse rt source) as [root|] eqn:Hp.
      * by rewrite (imports_module_spec rt w p source M root Hf Hp).
      * by rewrite (imports_module_unparsable rt w p source M Hf Hp).
    + by rewrite (imports_module_unreadable rt w p M Hf).
Qed.

Lemma relative_only_file_never_reported_witness :
  imports_module dot_only_rt "pkg/d.py" "x" dot_only_world
  = (Returned false, dot_only_world).
Proof.
  apply (relative_only_file_never_reported dot_only_rt dot_only_world "pkg/d.py"
           dot_only_source "x" dot_only_tree); reflexivity.
Defined.

(** ** The finders on a whole tree *)

(** A property of the world kept by every visit is kept by [walk]. *)
Lemma walk_world_invariant {W} (rt : runtime) (cls : Walker W) (J : world -> Prop)
    (root : string) (obj : W) (w : world) :
  (forall p s, J s.2 -> J (_visit_module cls p s).2.2) ->
  J w -> J (BaseImportWalker.walk rt cls root (obj, w)).2.2.
Proof.
  intros Hvisit Hw. unfold BaseImportWalker.walk, bind, update. simpl.
  apply (for_each_invariant (fun s => J s.2)); [|exact Hw].
  intros d s Hs. unfold BaseImportWalker._visit_path, bind, self.
  apply (for_each_invariant (fun s => J s.2)); [|exact Hs].
  intros g s' Hs'. apply (for_each_invariant (fun s => J s.2)); [|exact Hs'].
  exact Hvisit.
Qed.

(** X5: when every candidate can be read and parses, the walk of the
    structural finder returns; the result set holds exactly the
    candidates that [imports_module] reports, [self.path] is the walked
    root and the world is as it was. *)
Theorem structural_walk_complete (rt : runtime) (w : world) (root M : string) :
  let cs := candidates rt (globs (BaseImportWalker.init M)) root in
  Forall (fun p => exists src tree,
            files w !! p = Some src /\ ast_parse rt src = Some tree) cs ->
  BaseImportWalker.walk rt (ImportFinderAST.cls rt) root
    (CollectingImportWalker.init M, w) =
  (Returned tt,
   (Collecting (Base M (Some root) (globs (BaseImportWalker.init M)))
               (list_to_set (List.filter (imports rt w M) cs)), w)).
Proof.
  intros cs Hcs.
  rewrite walk_candidates; [| apply ImportFinderAST_base | reflexivity].
  simpl base. simpl with_base. simpl module_name. fold cs.
  change (_visit_module (ImportFinderAST.cls rt)) with (ImportFinderAST._visit_module rt).
  rewrite (ImportFinderAST_parsed_prefix rt cs _ _ w Hcs). simpl.
  by rewrite (right_id_L ∅ (∪)).
Qed.

Lemma structural_walk_complete_witness :
  BaseImportWalker.walk parsed_rt (ImportFinderAST.cls parsed_rt) "root"
    (CollectingImportWalker.init "foo", scenario_world) =
  (Returned tt,
   (Collecting (Base "foo" (Some "root") (globs (BaseImportWalker.init "foo")))
               (list_to_set (List.filter (imports parsed_rt scenario_world "foo")
                  (candidates parsed_rt (globs (BaseImportWalker.init "foo")) "root"))),
    scenario_world)).
Proof.
  apply (structural_walk_complete parsed_rt scenario_world "root" "foo").
  vm_compute. repeat constructor; eexists; eexists; split; reflexivity.
Defined.

Lemma ImportFinderRE_run_readable (M : string) (l : list string)
    (b : BaseImportWalker) (found : gset string) (w : world) :
  (forall p, p ∈ l -> is_Some (files w !! p)) ->
  for_each ImportFinderRE._visit_module l
    (FinderRE (Collecting b found) (make_import_regexes M).1
              (make_import_regexes M).2, w) =
  (Returned tt,
   (FinderRE (Collecting b (list_to_set (List.filter (pattern_match M w) l) ∪ found))
             (make_import_regexes M).1 (make_import_regexes M).2, w)).
Proof.
  intros Hr.
  destruct (for_each ImportFinderRE._visit_module l _) as [r s'] eqn:E.
  assert (Hr' : r = Returned tt).
  { revert found r s' E. induction l as [|p l IH]; intros found r s'; simpl.
    - by intros [= <- _].
    - unfold bind. rewrite ImportFinderRE_visit.
      destruct (Hr p) as [source Hs]; [left|]. rewrite Hs.
      destruct (_ || _); apply IH; intros q Hq; apply Hr; by right. }
  subst r. apply ImportFinderRE_run in E. by subst s'.
Qed.

(** X6: on a tree whose candidates can all be read, [find_imports]
    returns, whether the files parse or not; it prints one text, the
    sorted relative paths of the candidates that a matcher matches, and
    changes nothing else. *)
Theorem find_imports_returns (rt : runtime) (root M : string) (w : world) :
  let cs := candidates rt (globs (BaseImportWalker.init M)) root in
  dotted_name M = true ->
  (forall p, p ∈ cs -> is_Some (files w !! p)) ->
  find_imports rt root M w =
  (Returned tt,
   World (files w) (unwritable w) (writes w)
         (stdout w ++
          [join_lines (sorted ((fun p => os_path_relpath rt p root) <$>
             elements (list_to_set (List.filter (pattern_match M w) cs)
                       : gset string)))])).
Proof.
  intros cs _ Hr. unfold find_imports, with_object, bind.
  rewrite walk_candidates; [| apply ImportFinderRE_base | reflexivity].
  simpl base. simpl with_base. simpl _visit_module. simpl module_name. fold cs.
  unfold ImportFinderRE.init. simpl.
  change (IMPORT_PATTERN_TEMPLATE M) with (make_import_regexes M).1.
  change (IMPORT_FROM_PATTERN_TEMPLATE M) with (make_import_regexes M).2.
  rewrite (ImportFinderRE_run_readable M cs _ _ w Hr). simpl.
  unfold CollectingImportWalker.__str__, CollectingImportWalker.str_in_order. simpl.
  rewrite collect_relpath. simpl. by rewrite (right_id_L ∅ (∪)).
Qed.

Lemma find_imports_returns_witness :
  find_imports scenario_rt "root" "foo" scenario_world =
  (Returned tt,
   World (files scenario_world) (unwritable scenario_world) (writes scenario_world)
         (stdout scenario_world ++
          [join_lines (sorted ((fun p => os_path_relpath scenario_rt p "root") <$>
             elements (list_to_set
                (List.filter (pattern_match "foo" scenario_world)
                   (candidates scenario_rt (globs (BaseImportWalker.init "foo"))
                               "root")) : gset string)))])).
Proof.
  apply (find_imports_returns scenario_rt "root" "foo" scenario_world).
  - reflexivity.
  - intros p Hp. vm_compute in Hp.
    repeat (apply elem_of_cons in Hp as [->|Hp]; [eexists; reflexivity|]).
    by apply not_elem_of_nil in Hp.
Defined.

(** X7: [find_imports] stops at the first candidate it cannot read: the
    [IOError] for that path leaves the function, nothing is printed and
    the world is as it was. *)
Theorem find_imports_stops_at_unreadable (rt : runtime) (root M bad : string)
    (pre post : list string) (w : world) :
  dotted_name M = true ->
  candidates rt (globs (BaseImportWalker.init M)) root = (pre ++ bad :: post)%list ->
  (forall p, p ∈ pre -> is_Some (files w !! p)) ->
  files w !! bad = None ->
  find_imports rt root M w = (Raised (IOError bad), w).
Proof.
  intros _ Hc Hr Hbad. unfold find_imports, with_object, bind.
  rewrite walk_candidates; [| apply ImportFinderRE_base | reflexivity].
  simpl base. simpl with_base. simpl _visit_module. simpl module_name.
  rewrite Hc. unfold ImportFinderRE.init. simpl.
  change (IMPORT_PATTERN_TEMPLATE M) with (make_import_regexes M).1.
  change (IMPORT_FROM_PATTERN_TEMPLATE M) with (make_import_regexes M).2.
  rewrite for_each_app. unfold bind.
  rewrite (ImportFinderRE_run_readable M pre _ _ w Hr). simpl. unfold bind.
  rewrite ImportFinderRE_visit, Hbad. reflexivity.
Qed.

Lemma find_imports_stops_at_unreadable_witness :
  find_imports missing_rt "root" "foo" scenario_world
  = (Raised (IOError "root/gone.py"), scenario_world).
Proof.
  apply (find_imports_stops_at_unreadable missing_rt "root" "foo" "root/gone.py"
           ["root/a.py"] ["root/b.py"] scenario_world).
  - reflexivity.
  - reflexivity.
  - intros p Hp. apply list_elem_of_singleton in Hp as ->. eexists; reflexivity.
  - reflexivity.
Defined.

Lemma ImportFinderRE_world p (s : ImportFinderRE * world) :
  (ImportFinderRE._visit_module p s).2.2 = s.2.
Proof.
  destruct s as [o v]. rewrite ImportFinderRE_visit. simpl.
  destruct (files v !! p); [destruct (_ || _)|]; reflexivity.
Qed.

Lemma find_imports_same_disk (rt : runtime) (root M : string) (w : world) :
  same_disk w (find_imports rt root M w).2.
Proof.
  unfold find_imports, with_object, bind.
  pose proof (walk_world_invariant rt ImportFinderRE.cls (fun v => v = w) root
                (ImportFinderRE.init M) w) as Hinv.
  assert (Hw : (BaseImportWalker.walk rt ImportFinderRE.cls root
                  (ImportFinderRE.init M, w)).2.2 = w).
  { apply Hinv; [|reflexivity]. intros p s Hs.
    change (_visit_module ImportFinderRE.cls p s)
      with (ImportFinderRE._visit_module p s).
    by rewrite ImportFinderRE_world. }
  destruct (BaseImportWalker.walk rt ImportFinderRE.cls root _)
    as [[[]|e] [o v]]; simpl in Hw; subst v.
  - unfold self. simpl.
    destruct (CollectingImportWalker.__str__ rt (finder_collecting o));
      split; reflexivity.
  - split; reflexivity.
Qed.

(** X8: neither finder ever writes.  Whatever the tree and whatever the
    outcome, the walk of the structural finder leaves the world as it
    was, and [find_imports] leaves every file and the write log as they
    were. *)
Theorem finders_never_write (rt : runtime) (root M : string) (w : world)
    (obj : CollectingImportWalker) :
  (BaseImportWalker.walk rt (ImportFinderAST.cls rt) root (obj, w)).2.2 = w
  /\ same_disk w (find_imports rt root M w).2.
Proof.
  split; [|apply find_imports_same_disk].
  apply (walk_world_invariant rt (ImportFinderAST.cls rt) (fun v => v = w));
    [|reflexivity].
  intros p [o v] Hv. simpl in *. rewrite ImportFinderAST_visit.
  pose proof (imports_module_world rt p (module_name (collecting_base o)) v) as Hw.
  destruct (imports_module rt p _ v) as [[[]|e] v']; simpl in *; congruence.
Qed.

(** ** Substitution *)

Lemma append_cons (c : ascii) (s t : string) :
  String c s +:+ t = String c (s +:+ t).
Proof. reflexivity. Qed.

Lemma append_nil_r (s : string) : s +:+ "" = s.
Proof.
  induction s as [|c s IH]; [reflexivity|]. by rewrite append_cons, IH.
Qed.

Lemma append_assoc (s1 s2 s3 : string) :
  (s1 +:+ s2) +:+ s3 = s1 +:+ (s2 +:+ s3).
Proof.
  induction s1 as [|c s1 IH]; [reflexivity|]. by rewrite !append_cons, IH.
Qed.

Lemma search_false_cons (r : regex) (c : ascii) (s : string) :
  re_search r (String c s) = false ->
  match_at r (String c s) = None /\ re_search r s = false.
Proof.
  simpl. destruct (match_at r (String c s)); [discriminate | auto].
Qed.

Lemma sub_without_match_is_identity_aux (r : regex) (repl s : string) :
  re_search r s = false -> re_sub r repl s = s.
Proof.
  unfold re_sub. induction s as [|c s IH]; intros H; [reflexivity|].
  apply search_false_cons in H as [Hm Hs].
  simpl. rewrite Hm. simpl. by rewrite (IH Hs).
Qed.

(** X9: on a source that the matcher does not match, [sub] returns the
    source unchanged and [finditer] yields nothing. *)
Theorem sub_without_match_is_identity (r : regex) (repl s : string) :
  re_search r s = false ->
  re_sub r repl s = s /\ re_finditer r s = [].
Proof.
  unfold re_sub, re_finditer. induction s as [|c s IH]; intros H.
  - split; reflexivity.
  - apply search_false_cons in H as [Hm Hs]. destruct (IH Hs) as [IH1 IH2].
    simpl. rewrite Hm. csimpl. split; [by rewrite IH1 | exact IH2].
Qed.

Lemma sub_without_match_is_identity_witness :
  re_sub (IMPORT_PATTERN_TEMPLATE "foo") "import qux" "import os"
  = "import os"
  /\ re_finditer (IMPORT_PATTERN_TEMPLATE "foo") "import os" = [].
Proof.
  apply (sub_without_match_is_identity (IMPORT_PATTERN_TEMPLATE "foo")
           "import qux" "import os").
  reflexivity.
Defined.

Lemma line_of_before_newline (t rest : string) :
  line_of (t +:+ String newline rest) = line_of t.
Proof.
  induction t as [|c t IH]; simpl.
  - reflexivity.
  - destruct (Ascii.eqb c newline); [reflexivity | by rewrite IH].
Qed.

(** A head none of whose atoms matches a newline never reads past the end
    of a line. *)
Lemma match_head_before_newline (h : list atom) (x rest : string) :
  Forall (fun a => atom_matches a newline = false) h ->
  match_head h (x +:+ String newline rest) =
  match match_head h x with
  | Some t => Some (t +:+ String newline rest)
  | None => if h is [] then Some (x +:+ String newline rest) else None
  end.
Proof.
  intros Hh. revert x. induction Hh as [|a h Ha _ IH]; intros x; simpl.
  - reflexivity.
  - destruct x as [|c x]; simpl.
    + by rewrite Ha.
    + destruct (atom_matches a c); [|reflexivity].
      rewrite IH. destruct (match_head h x) eqn:E; [reflexivity|].
      destruct h; [discriminate E | reflexivity].
Qed.

Lemma match_at_before_newline (r : regex) (x rest : string) :
  head_on_one_line r ->
  match_at r (x +:+ String newline rest) = match_at r x.
Proof.
  intros [Hne Hh]. unfold match_at.
  rewrite (match_head_before_newline _ x rest Hh).
  destruct (match_head (re_head r) x) as [t|].
  - by rewrite line_of_before_newline.
  - destruct (re_head r); [contradiction | reflexivity].
Qed.

Lemma match_at_newline (r : regex) (rest : string) :
  head_on_one_line r -> match_at r (String newline rest) = None.
Proof.
  intros [Hne Hh]. unfold match_at.
  destruct (re_head r) as [|a h]; [contradiction|].
  apply Forall_cons in Hh as [Ha _]. simpl. by rewrite Ha.
Qed.

Lemma scan_newline (r : regex) (rest : string) (inside : bool) :
  head_on_one_line r ->
  scan r inside (String newline rest) = Unmatched newline :: scan r false rest.
Proof.
  intros Hr. cbn [scan]. rewrite (match_at_newline r rest Hr). by destruct inside.
Qed.

Lemma render_scan_line (r : regex) (repl l rest : string) (inside : bool) :
  head_on_one_line r -> one_line l = true ->
  render repl (scan r inside (l +:+ String newline rest)) =
  render repl (scan r inside l) +:+ String newline (render repl (scan r false rest)).
Proof.
  intros Hr. revert inside. induction l as [|c l IH]; intros inside Hl.
  - change ("" +:+ String newline rest) with (String newline rest).
    rewrite (scan_newline r rest inside Hr). reflexivity.
  - simpl in Hl. apply andb_true_iff in Hl as [Hc Hl].
    change (String c l +:+ String newline rest)
      with (String c (l +:+ String newline rest)).
    cbn [scan]. rewrite Hc.
    destruct inside; simpl.
    + by apply IH.
    + change (String c (l +:+ String newline rest))
        with (String c l +:+ String newline rest).
      rewrite (match_at_before_newline r (String c l) rest Hr).
      destruct (match_at r (String c l)) as [g|]; simpl.
      * generalize (expand repl g). intros e.
        rewrite append_assoc. f_equal. by apply IH.
      * rewrite append_cons. f_equal. by apply IH.
Qed.

Lemma ident_char_not_newline (c : ascii) :
  ident_char c = true -> Ascii.eqb c newline = false.
Proof.
  intros H. destruct (Ascii.eqb c newline) eqn:E; [|reflexivity].
  apply Ascii.eqb_eq in E. subst c. discriminate H.
Qed.

Lemma atoms_of_one_line (m : string) :
  all_ident_chars m = true ->
  Forall (fun a => atom_matches a newline = false) (atoms_of m).
Proof.
  induction m as [|c m IH]; simpl; intros H; [constructor|].
  apply andb_true_iff in H as [Hc Hm]. constructor; [|auto].
  destruct (Ascii.eqb c "."); simpl; [reflexivity|].
  by apply ident_char_not_newline.
Qed.

Lemma dotted_name_chars (m : string) :
  dotted_name m = true -> all_ident_chars m = true.
Proof. unfold dotted_name. intros H. by apply andb_true_iff in H as [_ H]. Qed.

Lemma import_regexes_on_one_line (m : string) :
  dotted_name m = true ->
  head_on_one_line (make_import_regexes m).1
  /\ head_on_one_line (make_import_regexes m).2.
Proof.
  intros H. apply dotted_name_chars, atoms_of_one_line in H.
  split; (split; [discriminate|]); simpl; repeat (constructor; [reflexivity|]);
    exact H.
Qed.

(** X10: the substitution by either matcher of a module identifier works
    line by line: the result on a text is the results on its lines,
    joined again, so the number of lines never changes and what a
    substitution does to a line does not depend on the other lines. *)
Theorem sub_line_by_line (m repl : string) (ls : list string) :
  dotted_name m = true ->
  Forall (fun l => one_line l = true) ls ->
  re_sub (make_import_regexes m).1 repl (join_lines ls)
  = join_lines (re_sub (make_import_regexes m).1 repl <$> ls)
  /\ re_sub (make_import_regexes m).2 repl (join_lines ls)
     = join_lines (re_sub (make_import_regexes m).2 repl <$> ls).
Proof.
  intros Hm Hls. destruct (import_regexes_on_one_line m Hm) as [H1 H2].
  assert (Hgen : forall r, head_on_one_line r ->
            re_sub r repl (join_lines ls) = join_lines (re_sub r repl <$> ls)).
  { intros r Hr. induction Hls as [|l ls Hl Hls IH]; [reflexivity|].
    destruct ls as [|l' ls]; [reflexivity|].
    change (join_lines (l :: l' :: ls))
      with (l +:+ String newline (join_lines (l' :: ls))).
    unfold re_sub at 1. rewrite (render_scan_line r repl l _ false Hr Hl).
    fold (re_sub r repl l). fold (re_sub r repl (join_lines (l' :: ls))).
    rewrite IH. reflexivity. }
  split; apply Hgen; assumption.
Qed.

Lemma sub_line_by_line_witness :
  re_sub (make_import_regexes "foo").1 "import qux"
         (join_lines ["import os"; "import foo.bar"; "from foo import baz"])
  = join_lines (re_sub (make_import_regexes "foo").1 "import qux"
                  <$> ["import os"; "import foo.bar"; "from foo import baz"])
  /\ re_sub (make_import_regexes "foo").2 "import qux"
            (join_lines ["import os"; "import foo.bar"; "from foo import baz"])
     = join_lines (re_sub (make_import_regexes "foo").2 "import qux"
                     <$> ["import os"; "import foo.bar"; "from foo import baz"]).
Proof.
  apply (sub_line_by_line "foo" "import qux"
           ["import os"; "import foo.bar"; "from foo import baz"]).
  - reflexivity.
  - repeat constructor.
Defined.

Lemma match_head_self (m rest : string) :
  match_head (atoms_of m) (m +:+ rest) = Some rest.
Proof.
  induction m as [|c m IH]; [reflexivity|].
  rewrite append_cons. cbn [atoms_of match_head].
  by rewrite atom_matches_own.
Qed.

Lemma scan_inside_one_line (r : regex) (s : string) :
  one_line s = true -> scan r true s = [].
Proof.
  induction s as [|c s IH]; [reflexivity|]. simpl. intros H.
  apply andb_true_iff in H as [Hc Hs]. rewrite Hc. auto.
Qed.

Lemma line_of_one_line (s : string) : one_line s = true -> line_of s = s.
Proof.
  induction s as [|c s IH]; [reflexivity|]. simpl. intros H.
  apply andb_true_iff in H as [Hc Hs]. apply negb_true_iff in Hc.
  rewrite Hc. by rewrite IH.
Qed.

Lemma one_line_append (a b : string) :
  one_line (a +:+ b) = one_line a && one_line b.
Proof.
  induction a as [|c a IH]; [reflexivity|].
  rewrite append_cons. simpl. by rewrite IH, andb_assoc.
Qed.

Lemma ident_chars_one_line (m : string) :
  all_ident_chars m = true -> one_line m = true.
Proof.
  induction m as [|c m IH]; [reflexivity|]. simpl. intros H.
  apply andb_true_iff in H as [Hc Hm].
  by rewrite (ident_char_not_newline c Hc), IH.
Qed.

(** A match at the very start of a one-line text is replaced by the
    template and the group; nothing else is left. *)
Lemma sub_at_start (r : regex) (repl : string) (c : ascii) (s g : string) :
  match_at r (String c s) = Some g ->
  one_line s = true ->
  re_sub r repl (String c s) = repl +:+ g.
Proof.
  intros Hm Hs. unfold re_sub. cbn [scan]. simpl andb. cbv iota.
  rewrite Hm, (scan_inside_one_line r s Hs). simpl. apply append_nil_r.
Qed.

Lemma sub_import_statement (m repl rest : string) :
  all_ident_chars m = true -> one_line rest = true ->
  re_sub (IMPORT_PATTERN_TEMPLATE m) repl ("import " +:+ m +:+ rest)
  = repl +:+ rest.
Proof.
  intros Hm Hr.
  change ("import " +:+ m +:+ rest) with (String "i" ("mport " +:+ m +:+ rest)).
  rewrite (sub_at_start _ repl _ _ rest); [reflexivity | |].
  - change (String "i" ("mport " +:+ m +:+ rest)) with ("import " +:+ m +:+ rest).
    unfold match_at, IMPORT_PATTERN_TEMPLATE. cbn [re_head re_group].
    rewrite match_head_literal, match_head_self. by rewrite line_of_one_line.
  - rewrite !one_line_append, Hr, (ident_chars_one_line m Hm). reflexivity.
Qed.

Lemma sub_from_statement (m repl rest : string) :
  all_ident_chars m = true -> one_line rest = true ->
  import_clause rest = true ->
  re_sub (IMPORT_FROM_PATTERN_TEMPLATE m) repl ("from " +:+ m +:+ rest)
  = repl +:+ rest.
Proof.
  intros Hm Hr Hc.
  change ("from " +:+ m +:+ rest) with (String "f" ("rom " +:+ m +:+ rest)).
  rewrite (sub_at_start _ repl _ _ rest); [reflexivity | |].
  - change (String "f" ("rom " +:+ m +:+ rest)) with ("from " +:+ m +:+ rest).
    unfold match_at, IMPORT_FROM_PATTERN_TEMPLATE. cbn [re_head re_group].
    rewrite match_head_literal, match_head_self.
    rewrite (line_of_one_line rest Hr), Hc. reflexivity.
  - rewrite !one_line_append, Hr, (ident_chars_one_line m Hm). reflexivity.
Qed.

(** X11: an import statement of [M] that fills its line is rewritten to
    the same statement of [N], and what follows the module name on the
    line (a submodule path, an alias, other names, a comment) is carried
    over unchanged; the same holds of a from-import statement of [M]
    with its import clause. *)
Theorem statement_is_renamed_rest_kept (M N rest : string) :
  dotted_name M = true -> dotted_name N = true ->
  one_line rest = true ->
  let obj := ImportRenamer.init M N in
  re_sub (import_regex obj) (import_repl obj) ("import " +:+ M +:+ rest)
  = "import " +:+ N +:+ rest
  /\ (import_clause rest = true ->
      re_sub (import_from_regex obj) (import_from_repl obj)
             ("from " +:+ M +:+ rest)
      = "from " +:+ N +:+ rest).
Proof.
  intros HM _ Hr obj. apply dotted_name_chars in HM.
  subst obj. unfold ImportRenamer.init. simpl. split.
  - rewrite (sub_import_statement M _ rest HM Hr). apply append_assoc.
  - intros Hc. rewrite (sub_from_statement M _ rest HM Hr Hc). apply append_assoc.
Qed.

Lemma statement_is_renamed_rest_kept_witness :
  let obj := ImportRenamer.init "foo" "qux.lib" in
  re_sub (import_regex obj) (import_repl obj)
         ("import " +:+ "foo" +:+ ".bar as b  # noqa")
  = "import " +:+ "qux.lib" +:+ ".bar as b  # noqa"
  /\ re_sub (import_from_regex obj) (import_from_repl obj)
            ("from " +:+ "foo" +:+ " import baz, quux")
     = "from " +:+ "qux.lib" +:+ " import baz, quux".
Proof.
  split.
  - apply (statement_is_renamed_rest_kept "foo" "qux.lib" ".bar as b  # noqa");
      reflexivity.
  - apply (statement_is_renamed_rest_kept "foo" "qux.lib" " import baz, quux");
      reflexivity.
Defined.

(** X12: renaming [M] to [N] and then [N] back to [M] restores an import
    statement of [M] that fills its line, and a from-import statement of
    [M], character for character. *)
Theorem rename_there_and_back (M N rest : string) :
  dotted_name M = true -> dotted_name N = true ->
  one_line rest = true ->
  let there := ImportRenamer.init M N in
  let back := ImportRenamer.init N M in
  re_sub (import_regex back) (import_repl back)
    (re_sub (import_regex there) (import_repl there) ("import " +:+ M +:+ rest))
  = "import " +:+ M +:+ rest
  /\ (import_clause rest = true ->
      re_sub (import_from_regex back) (import_from_repl back)
        (re_sub (import_from_regex there) (import_from_repl there)
                ("from " +:+ M +:+ rest))
      = "from " +:+ M +:+ rest).
Proof.
  intros HM HN Hr there back. apply dotted_name_chars in HM, HN.
  subst there back. unfold ImportRenamer.init. simpl. split.
  - rewrite (sub_import_statement M _ rest HM Hr), append_assoc.
    rewrite (sub_import_statement N _ rest HN Hr). apply append_assoc.
  - intros Hc.
    rewrite (sub_from_statement M _ rest HM Hr Hc), append_assoc.
    rewrite (sub_from_statement N _ rest HN Hr Hc). apply append_assoc.
Qed.

Lemma rename_there_and_back_witness :
  let there := ImportRenamer.init "foo" "qux" in
  let back := ImportRenamer.init "qux" "foo" in
  re_sub (import_regex back) (import_repl back)
    (re_sub (import_regex there) (import_repl there)
            ("import " +:+ "foo" +:+ ".bar as b"))
  = "import " +:+ "foo" +:+ ".bar as b"
  /\ re_sub (import_from_regex back) (import_from_repl back)
       (re_sub (import_from_regex there) (import_from_repl there)
               ("from " +:+ "foo" +:+ " import baz as z"))
     = "from " +:+ "foo" +:+ " import baz as z".
Proof.
  split.
  - apply (rename_there_and_back "foo" "qux" ".bar as b"); reflexivity.
  - apply (rename_there_and_back "foo" "qux" " import baz as z"); reflexivity.
Defined.

(** ** A module and its parent package *)

Lemma prefix_split (p s : string) :
  String.prefix p s = true -> exists t, s = p +:+ t.
Proof.
  revert s. induction p as [|a p IH]; intros s H.
  - by exists s.
  - destruct s as [|b s]; [discriminate|].
    apply prefix_cons in H as [<- H]. destruct (IH s H) as [t ->].
    by exists t.
Qed.

Lemma prefix_append (p t : string) : String.prefix p (p +:+ t) = true.
Proof.
  induction p as [|a p IH]; simpl; [by destruct t|].
  destruct (Ascii.ascii_dec a a); [exact IH | congruence].
Qed.

Lemma prefix_transitive (a b c : string) :
  String.prefix a b = true -> String.prefix b c = true ->
  String.prefix a c = true.
Proof.
  intros Hab Hbc. destruct (prefix_split a b Hab) as [t ->].
  destruct (prefix_split _ c Hbc) as [u ->].
  rewrite append_assoc. apply prefix_append.
Qed.

Lemma atoms_of_append (a b : string) :
  atoms_of (a +:+ b) = (atoms_of a ++ atoms_of b)%list.
Proof.
  induction a as [|c a IH]; [reflexivity|].
  rewrite append_cons. simpl. by rewrite IH.
Qed.

Lemma all_ident_chars_append (a b : string) :
  all_ident_chars (a +:+ b) = all_ident_chars a && all_ident_chars b.
Proof.
  induction a as [|c a IH]; [reflexivity|].
  rewrite append_cons. simpl. by rewrite IH, andb_assoc.
Qed.

Lemma match_head_app (h1 h2 : list atom) (s : string) :
  match_head (h1 ++ h2) s =
  match match_head h1 s with
  | Some t => match_head h2 t
  | None => None
  end.
Proof.
  revert s. induction h1 as [|a h1 IH]; intros s; simpl; [reflexivity|].
  destruct s as [|c s]; [reflexivity|].
  destruct (atom_matches a c); [apply IH | reflexivity].
Qed.

(** What a head that stays on one line has read does not take an import
    clause away from the rest of the line. *)
Lemma import_clause_before (h : list atom) (t' t : string) :
  Forall (fun a => atom_matches a newline = false) h ->
  match_head h t' = Some t ->
  import_clause (line_of t) = true ->
  import_clause (line_of t') = true.
Proof.
  intros Hh. revert t'. induction Hh as [|a h Ha _ IH]; intros t'; simpl.
  - by intros [= ->].
  - destruct t' as [|c t']; [discriminate|].
    destruct (atom_matches a c) eqn:Hc; [|discriminate].
    intros Hm Hi. simpl.
    destruct (Ascii.eqb c newline) eqn:E.
    + apply Ascii.eqb_eq in E. subst c. congruence.
    + cbn [import_clause]. rewrite (IH t' Hm Hi). apply orb_true_r.
Qed.

Lemma re_search_weaken (r r' : regex) (s : string) :
  (forall x g, match_at r x = Some g -> is_Some (match_at r' x)) ->
  re_search r s = true -> re_search r' s = true.
Proof.
  intros H. induction s as [|c s IH]; simpl.
  - destruct (match_at r "") as [g|] eqn:E; [|discriminate].
    destruct (H "" g E) as [g' ->]. reflexivity.
  - destruct (match_at r (String c s)) as [g|] eqn:E.
    + destruct (H _ g E) as [g' ->]. reflexivity.
    + intros Hs. rewrite (IH Hs). by destruct (match_at r' (String c s)).
Qed.

Lemma matchers_of_parent (parent rest : string) (s : string) :
  all_ident_chars rest = true ->
  (re_search (make_import_regexes (parent +:+ rest)).1 s = true ->
   re_search (make_import_regexes parent).1 s = true)
  /\ (re_search (make_import_regexes (parent +:+ rest)).2 s = true ->
      re_search (make_import_regexes parent).2 s = true).
Proof.
  intros Hrest. pose proof (atoms_of_one_line rest Hrest) as Hone.
  split; apply re_search_weaken; intros x g;
    unfold match_at, make_import_regexes, IMPORT_PATTERN_TEMPLATE,
      IMPORT_FROM_PATTERN_TEMPLATE;
    cbn [fst snd re_head re_group];
    rewrite atoms_of_append, app_assoc, match_head_app.
  - destruct (match_head _ x) as [t'|]; [eauto | discriminate].
  - destruct (match_head _ x) as [t'|]; [|discriminate].
    destruct (match_head (atoms_of rest) t') as [t|] eqn:Ht; [|discriminate].
    destruct (import_clause (line_of t)) eqn:Hi; [|discriminate].
    rewrite (import_clause_before _ t' t Hone Ht Hi). eauto.
Qed.

(** X13: a file reported for a module is reported for every parent
    package of it, and more generally for every module name the name
    starts with; this holds of the structural checker and of the two
    matchers alike. *)
Theorem reported_for_parent_package (rt : runtime) (w : world)
    (parent M p : string) :
  dotted_name parent = true -> dotted_name M = true ->
  String.prefix parent M = true ->
  (imports rt w M p = true -> imports rt w parent p = true)
  /\ (pattern_match M w p = true -> pattern_match parent w p = true).
Proof.
  intros _ HM Hpre. destruct (prefix_split parent M Hpre) as [rest ->].
  apply dotted_name_chars in HM. rewrite all_ident_chars_append in HM.
  apply andb_true_iff in HM as [_ Hrest]. split.
  - unfold imports.
    rewrite (imports_module_value rt w p (parent +:+ rest)).
    rewrite (imports_module_value rt w p parent).
    destruct (files w !! p) as [source|]; [|discriminate].
    destruct (ast_parse rt source) as [root|]; [|discriminate].
    destruct (existsb _ (imported_modules root)) eqn:E; [|discriminate].
    intros _. apply existsb_exists in E as (m & Hin & Hm).
    assert (E' : existsb (fun m => startswith m parent) (imported_modules root) = true).
    { apply existsb_exists. exists m. split; [exact Hin|].
      unfold startswith in *. by apply (prefix_transitive parent (parent +:+ rest)). }
    by rewrite E'.
  - unfold pattern_match. destruct (files w !! p) as [source|]; [|discriminate].
    destruct (matchers_of_parent parent rest source Hrest) as [H1 H2].
    intros H. apply orb_true_iff in H as [H|H]; apply orb_true_iff; auto.
Qed.

Lemma reported_for_parent_package_witness :
  imports parsed_rt scenario_world "foo" "root/a.py" = true
  /\ pattern_match "foo" scenario_world "root/a.py" = true.
Proof.
  split;
    apply (reported_for_parent_package parsed_rt scenario_world "foo" "foo.bar"
             "root/a.py"); reflexivity.
Defined.

(** ** The style check, in full *)

Lemma too_long_Exists (repl : string) (gs : list string) :
  existsb (too_long repl) gs = true <->
  Exists (fun n => 79 < n) ((fun g => String.length (expand repl g)) <$> gs).
Proof.
  induction gs as [|g gs IH]; csimpl.
  - split; [discriminate | intros H; inversion H].
  - rewrite orb_true_iff, Exists_cons, IH. unfold too_long.
    by rewrite Nat.ltb_lt.
Qed.

Lemma too_long_Forall (repl : string) (gs : list string) :
  existsb (too_long repl) gs = false <->
  Forall (fun n => n <= 79) ((fun g => String.length (expand repl g)) <$> gs).
Proof.
  induction gs as [|g gs IH]; csimpl.
  - split; [constructor | reflexivity].
  - rewrite orb_false_iff, Forall_cons, IH. unfold too_long.
    by rewrite Nat.ltb_ge.
Qed.

(** X14: [_meets_pep8] is [None] exactly when the matcher has no match in
    the source, [False] exactly when the expansion of some match is more
    than 79 characters long, and [True] exactly when there are matches
    and every expansion is at most 79 characters long; after a
    successful [search] with one of the import matchers it is never
    [None]. *)
Theorem meets_pep8_three_values (source : string) (r : regex) (repl : string) :
  let v := ImportRenamer._meets_pep8 source r repl in
  let lengths := (fun g => String.length (expand repl g)) <$> re_finditer r source in
  (v = None <-> re_finditer r source = [])
  /\ (v = Some false <-> Exists (fun n => 79 < n) lengths)
  /\ (v = Some true <-> re_finditer r source <> [] /\ Forall (fun n => n <= 79) lengths)
  /\ (re_head r <> [] -> re_search r source = true -> v <> None).
Proof.
  intros v lengths. subst v lengths. unfold ImportRenamer._meets_pep8.
  rewrite meets_pep8_loop_spec.
  pose proof (too_long_Exists repl (re_finditer r source)) as Hex.
  pose proof (too_long_Forall repl (re_finditer r source)) as Hall.
  destruct (existsb (too_long repl) (re_finditer r source)) eqn:E.
  - assert (Hne : re_finditer r source <> []).
    { intros Hn. rewrite Hn in E. discriminate E. }
    split; [|split; [|split]].
    + split; [discriminate | intros Hn; contradiction].
    + split; [intros _; by apply Hex | reflexivity].
    + split; [discriminate | intros [_ HF]; apply Hall in HF; discriminate HF].
    + intros _ _. discriminate.
  - destruct (re_finditer r source) as [|g gs] eqn:Ef.
    + split; [|split; [|split]].
      * split; reflexivity.
      * split; [discriminate | intros H; inversion H].
      * split; [discriminate | intros [Hne _]; contradiction].
      * intros Hh Hs. pose proof (finditer_nonempty r source Hh Hs) as Hne.
        rewrite Ef in Hne. contradiction.
    + split; [|split; [|split]].
      * split; discriminate.
      * split; [discriminate | intros H; apply Hex in H; discriminate H].
      * split; [intros _; split; [discriminate | by apply Hall] | reflexivity].
      * intros _ _. discriminate.
Qed.

Lemma meets_pep8_three_values_witness :
  ImportRenamer._meets_pep8 "import foo.bar" (IMPORT_PATTERN_TEMPLATE "foo")
    "import qux" <> None.
Proof.
  destruct (meets_pep8_three_values "import foo.bar"
              (IMPORT_PATTERN_TEMPLATE "foo") "import qux") as (_ & _ & _ & H).
  apply H; [discriminate | reflexivity].
Defined.

(** * The renamer on a whole tree *)

(** ** One visit and one run *)

Lemma with_output_id (obj : ImportRenamer) : with_output obj (output obj) = obj.
Proof. by destruct obj. Qed.

Lemma visit_entry_cases (obj : ImportRenamer) (w : world) (p entry : string) :
  visit_entry obj w p = Some entry -> entry = p \/ entry = "pep8: " +:+ p.
Proof.
  unfold visit_entry. destruct (files w !! p) as [source|]; [|discriminate].
  destruct (deciding obj source) as [regex repl].
  destruct (re_search regex source); [|discriminate].
  intros [= <-]. apply report_entry_cases.
Qed.

Lemma visit_entry_None (obj : ImportRenamer) (w : world) (p source : string) :
  files w !! p = Some source ->
  visit_entry obj w p = None <->
  re_search (import_regex obj) source = false
  /\ re_search (import_from_regex obj) source = false.
Proof.
  intros Hf. unfold visit_entry. rewrite Hf.
  pose proof (deciding_matches obj source) as Hd.
  destruct (deciding obj source) as [regex repl]. simpl in Hd.
  destruct (re_search regex source); symmetry in Hd.
  - apply orb_true_iff in Hd. split; [discriminate|]. intros [H1 H2].
    destruct Hd; congruence.
  - apply orb_false_iff in Hd. tauto.
Qed.

Lemma ImportRenamer_base p s :
  base ImportRenamer.cls (_visit_module ImportRenamer.cls p s).2.1
  = base ImportRenamer.cls s.1.
Proof.
  destruct s as [obj w]. simpl. rewrite renamer_visit.
  destruct (files w !! p) as [source|]; [|reflexivity].
  destruct (deciding obj source) as [regex repl].
  destruct (re_search regex source); [|reflexivity].
  unfold write_back. by destruct (decide (p ∈ unwritable w)).
Qed.

Lemma for_each_invariant_in {S A} (I : S -> Prop) (body : A -> M S unit)
    (l : list A) (s : S) :
  (forall x s, x ∈ l -> I s -> I (body x s).2) -> I s -> I (for_each body l s).2.
Proof.
  revert s. induction l as [|x l IH]; intros s Hbody Hs; simpl; [exact Hs|].
  unfold bind. pose proof (Hbody x s (list_elem_of_here x l) Hs) as Hx.
  destruct (body x s) as [[[]|e] s']; simpl in *; [|exact Hx].
  apply IH; [|exact Hx]. intros y s'' Hy. apply Hbody. by right.
Qed.

Lemma renamed_unmatched (obj : ImportRenamer) (source : string) :
  re_search (deciding obj source).1 source = false -> renamed obj source = source.
Proof.
  unfold renamed. destruct (deciding obj source) as [regex repl]. simpl.
  intros H. by apply sub_without_match_is_identity_aux.
Qed.

(** One visit of a readable file that can be written if it has to be,
    with everything it does to the world. *)
Lemma renamer_visit_full (p : string) (obj : ImportRenamer) (w : world) :
  is_Some (files w !! p) ->
  (rewrites obj w p = true -> p ∉ unwritable w) ->
  exists w',
    ImportRenamer._visit_module p (obj, w) =
      (Returned tt,
       (with_output obj (output obj ++ option_list (visit_entry obj w p)), w'))
    /\ stdout w' = stdout w
    /\ unwritable w' = unwritable w
    /\ writes w' = (writes w ++ if rewrites obj w p then [p] else [])%list
    /\ files w' !! p = renamed obj <$> files w !! p
    /\ (forall q, q <> p -> files w' !! q = files w !! q).
Proof.
  intros [source Hf]. rewrite renamer_visit. unfold visit_entry, rewrites.
  rewrite Hf. pose proof (renamed_unmatched obj source) as Hun.
  assert (Hre : renamed obj source
                = re_sub (deciding obj source).1 (deciding obj source).2 source).
  { unfold renamed. by destruct (deciding obj source). }
  destruct (deciding obj source) as [regex repl]. simpl in *.
  destruct (re_search regex source); intros Hw.
  - rewrite write_back_writable; [|by apply Hw].
    exists (written w p (re_sub regex repl source)). simpl.
    split; [reflexivity|]. split; [reflexivity|]. split; [reflexivity|].
    split; [reflexivity|]. split.
    + rewrite lookup_insert_eq. simpl. by rewrite Hre.
    + intros q Hq. by rewrite lookup_insert_ne.
  - exists w. simpl. rewrite !app_nil_r, with_output_id, Hf. simpl.
    rewrite Hun; [|reflexivity]. repeat split; auto.
Qed.

Lemma visit_entry_ext (obj obj' : ImportRenamer) (w w' : world) (l : list string) :
  deciding obj = deciding obj' ->
  (forall q, q ∈ l -> files w' !! q = files w !! q) ->
  omap (visit_entry obj' w') l = omap (visit_entry obj w) l.
Proof.
  intros Hd Hf. induction l as [|q l IH]; csimpl; [reflexivity|].
  assert (E : visit_entry obj' w' q = visit_entry obj w q).
  { unfold visit_entry. rewrite Hd, (Hf q); [reflexivity | left]. }
  rewrite E, IH; [reflexivity|]. intros q' Hq'. apply Hf. by right.
Qed.

Lemma rewrites_same (obj obj' : ImportRenamer) (w w' : world) (q : string) :
  deciding obj = deciding obj' -> files w' !! q = files w !! q ->
  rewrites obj' w' q = rewrites obj w q.
Proof. intros Hd Hf. unfold rewrites. by rewrite Hd, Hf. Qed.

Lemma rewrites_ext (obj obj' : ImportRenamer) (w w' : world) (l : list string) :
  deciding obj = deciding obj' ->
  (forall q, q ∈ l -> files w' !! q = files w !! q) ->
  List.filter (rewrites obj' w') l = List.filter (rewrites obj w) l.
Proof.
  intros Hd Hf. induction l as [|q l IH]; simpl; [reflexivity|].
  rewrite (rewrites_same obj obj' w w' q Hd); [|apply Hf; left].
  rewrite IH; [reflexivity|]. intros q' Hq'. apply Hf. by right.
Qed.

(** A run over distinct readable files, of which those to rewrite can be
    written, with everything it does. *)
Lemma renamer_run_full (l : list string) (obj : ImportRenamer) (w : world) :
  NoDup l ->
  (forall p, p ∈ l -> is_Some (files w !! p)) ->
  (forall p, p ∈ l -> rewrites obj w p = true -> p ∉ unwritable w) ->
  exists w',
    for_each ImportRenamer._visit_module l (obj, w) =
      (Returned tt, (with_output obj (output obj ++ omap (visit_entry obj w) l), w'))
    /\ stdout w' = stdout w
    /\ unwritable w' = unwritable w
    /\ writes w' = (writes w ++ List.filter (rewrites obj w) l)%list
    /\ (forall q, q ∈ l -> files w' !! q = renamed obj <$> files w !! q)
    /\ (forall q, q ∉ l -> files w' !! q = files w !! q).
Proof.
  revert obj w. induction l as [|p l IH]; intros obj w Hnd Hr Hw; csimpl.
  - exists w. rewrite !app_nil_r, with_output_id. repeat split; auto.
    intros q Hq. by apply elem_of_nil in Hq.
  - apply NoDup_cons in Hnd as [Hp Hnd].
    destruct (renamer_visit_full p obj w)
      as (w1 & E1 & Hout & Hun & Hwr & Hfp & Hother);
      [apply Hr; left | apply Hw; left |].
    unfold bind. rewrite E1.
    set (obj1 := with_output obj (output obj ++ option_list (visit_entry obj w p))).
    assert (Hsame : forall q, q ∈ l -> files w1 !! q = files w !! q).
    { intros q Hq. apply Hother. intros ->. contradiction. }
    destruct (IH obj1 w1 Hnd) as (w2 & E2 & Hout2 & Hun2 & Hwr2 & Hin2 & Hout_l).
    { intros q Hq. rewrite (Hsame q Hq). apply Hr. by right. }
    { intros q Hq. rewrite (rewrites_same obj obj1 w w1 q eq_refl (Hsame q Hq)), Hun.
      apply Hw. by right. }
    exists w2. rewrite E2. split; [|split; [|split; [|split; [|split]]]].
    + rewrite (visit_entry_ext obj obj1 w w1 l eq_refl Hsame).
      unfold obj1, with_output.
      cbn [renamer_base new_module_name import_regex import_from_regex
           import_from_repl import_repl output].
      rewrite <- app_assoc. by destruct (visit_entry obj w p).
    + congruence.
    + congruence.
    + rewrite Hwr2, Hwr, (rewrites_ext obj obj1 w w1 l eq_refl Hsame).
      rewrite <- app_assoc. by destruct (rewrites obj w p).
    + intros q Hq. apply elem_of_cons in Hq as [->|Hq].
      * rewrite (Hout_l p Hp). exact Hfp.
      * rewrite (Hin2 q Hq), (Hsame q Hq). reflexivity.
    + intros q Hq. apply not_elem_of_cons in Hq as [Hqp Hql].
      rewrite (Hout_l q Hql). by apply Hother.
Qed.

Lemma rewrites_init (b : BaseImportWalker) (M N : string) (out : list string)
    (w : world) (p : string) :
  rewrites (renamer_at b M N out) w p = pattern_match M w p.
Proof.
  unfold rewrites, pattern_match. destruct (files w !! p) as [source|]; [|reflexivity].
  apply (deciding_matches (renamer_at b M N out) source).
Qed.

Lemma rewrites_init_filter (b : BaseImportWalker) (M N : string)
    (out : list string) (w : world) (l : list string) :
  List.filter (rewrites (renamer_at b M N out) w) l
  = List.filter (pattern_match M w) l.
Proof.
  induction l as [|p l IH]; simpl; [reflexivity|].
  by rewrite rewrites_init, IH.
Qed.

(** [rename_imports] on a tree of distinct readable candidates, of which
    those that a matcher matches can be written. *)
Lemma rename_imports_run (rt : runtime) (root M N : string) (w : world) :
  let cs := candidates rt (globs (BaseImportWalker.init M)) root in
  NoDup cs ->
  (forall p, p ∈ cs -> is_Some (files w !! p)) ->
  (forall p, p ∈ cs -> pattern_match M w p = true -> p ∉ unwritable w) ->
  exists w',
    rename_imports rt root M N w = (Returned tt, w')
    /\ stdout w' =
       (stdout w ++ [join_lines (omap (visit_entry (ImportRenamer.init M N) w) cs)])%list
    /\ writes w' = (writes w ++ List.filter (pattern_match M w) cs)%list
    /\ (forall q, q ∈ cs ->
          files w' !! q = renamed (ImportRenamer.init M N) <$> files w !! q).
Proof.
  intros cs Hnd Hr Hw. unfold rename_imports, with_object, bind.
  rewrite walk_candidates; [| apply ImportRenamer_base | reflexivity].
  simpl base. simpl with_base. simpl _visit_module. fold cs.
  set (obj := Renamer _ _ _ _ _ _ _).
  destruct (renamer_run_full cs obj w Hnd Hr) as (w1 & E & Hout & _ & Hwr & Hin & _).
  { intros p Hp Hrw. apply (Hw p Hp). rewrite <- Hrw. symmetry.
    apply (rewrites_init _ M N [] w p). }
  rewrite E. simpl. eexists. split; [reflexivity|]. simpl.
  split; [by rewrite Hout|]. split.
  - rewrite Hwr. f_equal. apply (rewrites_init_filter _ M N []).
  - intros q Hq. by rewrite (Hin q Hq).
Qed.

(** ** The report *)

(** C8, as stated, fails: the report names the files by the paths under
    which they were visited, walked root included, and tags a style
    violation with [pep8: ]; neither line below is a path relative to the
    root or such a path after [style: ]. *)
Lemma report_lines_not_relative :
  let cs := candidates scenario_rt (globs (BaseImportWalker.init "foo")) "root" in
  let rel := fun p => os_path_relpath scenario_rt p "root" in
  let w' := (rename_imports scenario_rt "root" "foo" "qux" report_world).2 in
  stdout w' = ["root/a.py" +:+ NL +:+ "pep8: root/b.py"]
  /\ rel <$> cs = ["a.py"; "b.py"; "c.py"]
  /\ ~ (forall line, line ∈ ["root/a.py"; "pep8: root/b.py"] ->
        exists p, p ∈ cs /\ (line = rel p \/ line = "style: " +:+ rel p)).
Proof.
  split; [reflexivity|]. split; [reflexivity|].
  intros H. destruct (H "root/a.py") as (p & Hp & Hl); [left|].
  vm_compute in Hp.
  repeat (apply elem_of_cons in Hp as [->|Hp];
          [destruct Hl as [Hl|Hl]; vm_compute in Hl; discriminate Hl|]).
  by apply not_elem_of_nil in Hp.
Qed.

(** C8, amended: on a tree of distinct readable candidates, of which
    those that a matcher matches can be opened for writing,
    [rename_imports] returns and the report it prints has one line per
    rewritten file, in the order of the visits; each line is the path
    under which the file was visited, or that path after the tag
    [pep8: ]. *)
Theorem rewrite_report_lines (rt : runtime) (root M N : string) (w : world) :
  let cs := candidates rt (globs (BaseImportWalker.init M)) root in
  dotted_name M = true -> dotted_name N = true ->
  NoDup cs ->
  (forall p, p ∈ cs -> is_Some (files w !! p)) ->
  (forall p, p ∈ cs -> pattern_match M w p = true -> p ∉ unwritable w) ->
  exists w',
    rename_imports rt root M N w = (Returned tt, w')
    /\ stdout w' =
       (stdout w ++ [join_lines (omap (visit_entry (ImportRenamer.init M N) w) cs)])%list
    /\ (forall p, pattern_match M w p = true <->
                  is_Some (visit_entry (ImportRenamer.init M N) w p))
    /\ (forall p entry, visit_entry (ImportRenamer.init M N) w p = Some entry ->
                        entry = p \/ entry = "pep8: " +:+ p).
Proof.
  intros cs _ _ Hnd Hr Hw.
  destruct (rename_imports_run rt root M N w Hnd Hr Hw) as (w' & E & Hout & _).
  exists w'. split; [exact E|]. split; [exact Hout|]. split.
  - intros p. unfold pattern_match, visit_entry.
    destruct (files w !! p) as [source|];
      [| split; [discriminate | intros [? ?]; discriminate]].
    pose proof (deciding_matches (ImportRenamer.init M N) source) as Hd.
    destruct (deciding _ source) as [regex repl]. simpl in Hd.
    unfold ImportRenamer.init in Hd. simpl in Hd.
    change (make_import_regexes M).1 with (IMPORT_PATTERN_TEMPLATE M).
    change (make_import_regexes M).2 with (IMPORT_FROM_PATTERN_TEMPLATE M).
    rewrite <- Hd.
    destruct (re_search regex source); split; eauto; try discriminate.
    intros [? ?]; discriminate.
  - intros p entry. apply visit_entry_cases.
Qed.

Lemma rewrite_report_lines_witness :
  let w := read_only ["root/c.py"] report_world in
  exists w',
    rename_imports scenario_rt "root" "foo" "qux" w = (Returned tt, w')
    /\ stdout w' =
       (stdout w ++
        [join_lines (omap (visit_entry (ImportRenamer.init "foo" "qux") w)
                       (candidates scenario_rt
                          (globs (BaseImportWalker.init "foo")) "root"))])%list
    /\ (forall p, pattern_match "foo" w p = true <->
                  is_Some (visit_entry (ImportRenamer.init "foo" "qux") w p))
    /\ (forall p entry,
          visit_entry (ImportRenamer.init "foo" "qux") w p = Some entry ->
          entry = p \/ entry = "pep8: " +:+ p).
Proof.
  intros w.
  apply (rewrite_report_lines scenario_rt "root" "foo" "qux" w).
  - reflexivity.
  - reflexivity.
  - refine (bool_decide_unpack _ _). vm_compute. exact I.
  - intros p Hp. vm_compute in Hp.
    repeat (apply elem_of_cons in Hp as [->|Hp]; [eexists; reflexivity|]).
    by apply not_elem_of_nil in Hp.
  - intros p Hp Hm. vm_compute in Hp.
    repeat (apply elem_of_cons in Hp as [->|Hp];
            [first [discriminate Hm | vm_compute; intros H; discriminate H]|]).
    by apply not_elem_of_nil in Hp.
Defined.

(** ** What a run does to the files *)

(** X15: on a tree of distinct readable candidates, of which those that a
    matcher matches can be opened for writing, [rename_imports] returns;
    the files it writes are the candidates that a matcher matches, each
    once and in the order of the visits; and every candidate ends with
    the substitution by its deciding matcher applied to the content it
    had, which is that content itself for a file that no matcher
    matches. *)
Theorem rename_imports_effect (rt : runtime) (root M N : string) (w : world) :
  let cs := candidates rt (globs (BaseImportWalker.init M)) root in
  dotted_name M = true -> dotted_name N = true ->
  NoDup cs ->
  (forall p, p ∈ cs -> is_Some (files w !! p)) ->
  (forall p, p ∈ cs -> pattern_match M w p = true -> p ∉ unwritable w) ->
  exists w',
    rename_imports rt root M N w = (Returned tt, w')
    /\ writes w' = (writes w ++ List.filter (pattern_match M w) cs)%list
    /\ (forall q, q ∈ cs ->
          files w' !! q = renamed (ImportRenamer.init M N) <$> files w !! q)
    /\ (forall q source, q ∈ cs -> files w !! q = Some source ->
          pattern_match M w q = false -> files w' !! q = Some source).
Proof.
  intros cs _ _ Hnd Hr Hw.
  destruct (rename_imports_run rt root M N w Hnd Hr Hw) as (w' & E & _ & Hwr & Hin).
  exists w'. split; [exact E|]. split; [exact Hwr|]. split; [exact Hin|].
  intros q source Hq Hf Hpm. rewrite (Hin q Hq), Hf. simpl. f_equal.
  apply renamed_unmatched.
  pose proof (rewrites_init (BaseImportWalker.init M) M N [] w q) as Hrw.
  unfold rewrites in Hrw. rewrite Hf in Hrw.
  transitivity (pattern_match M w q); [exact Hrw | exact Hpm].
Qed.

Lemma rename_imports_effect_witness :
  let w := read_only ["root/c.py"] scenario_world in
  exists w',
    rename_imports scenario_rt "root" "foo" "qux" w = (Returned tt, w')
    /\ writes w' =
       (writes w ++
        List.filter (pattern_match "foo" w)
          (candidates scenario_rt (globs (BaseImportWalker.init "foo")) "root"))%list
    /\ (forall q,
          q ∈ candidates scenario_rt (globs (BaseImportWalker.init "foo")) "root" ->
          files w' !! q
          = renamed (ImportRenamer.init "foo" "qux") <$> files w !! q)
    /\ (forall q source,
          q ∈ candidates scenario_rt (globs (BaseImportWalker.init "foo")) "root" ->
          files w !! q = Some source ->
          pattern_match "foo" w q = false ->
          files w' !! q = Some source).
Proof.
  intros w.
  apply (rename_imports_effect scenario_rt "root" "foo" "qux" w).
  - reflexivity.
  - reflexivity.
  - refine (bool_decide_unpack _ _). vm_compute. exact I.
  - intros p Hp. vm_compute in Hp.
    repeat (apply elem_of_cons in Hp as [->|Hp]; [eexists; reflexivity|]).
    by apply not_elem_of_nil in Hp.
  - intros p Hp Hm. vm_compute in Hp.
    repeat (apply elem_of_cons in Hp as [->|Hp];
            [first [discriminate Hm | vm_compute; intros H; discriminate H]|]).
    by apply not_elem_of_nil in Hp.
Defined.

Lemma renamer_loop_keeps_files (l : list string) (obj : ImportRenamer) (w : world) :
  let v := (for_each ImportRenamer._visit_module l (obj, w)).2.2 in
  dom (files v) = dom (files w)
  /\ (forall q, q ∉ l -> files v !! q = files w !! q).
Proof.
  apply (for_each_invariant_in
    (fun s : ImportRenamer * world =>
       dom (files s.2) = dom (files w)
       /\ forall q, q ∉ l -> files s.2 !! q = files w !! q)); [|by split].
  intros p [o v] Hp [Hdom Hout]. simpl in *.
  rewrite renamer_visit. destruct (files v !! p) as [source|] eqn:Hf; [|by split].
  destruct (deciding o source) as [regex repl].
  destruct (re_search regex source); [|by split].
  unfold write_back. destruct (decide (p ∈ unwritable v)); [by split|].
  simpl. split.
  - rewrite dom_insert_L, <- Hdom. apply subseteq_union_1_L.
    apply singleton_subseteq_l, elem_of_dom. eauto.
  - intros q Hq. rewrite lookup_insert_ne; [by apply Hout|].
    intros ->. contradiction.
Qed.

(** X16: whatever the tree and whatever the outcome, [rename_imports]
    creates no file, deletes none, and leaves every file that is not a
    candidate of the walk with the content it had. *)
Theorem renamer_keeps_the_tree (rt : runtime) (root M N : string) (w : world) :
  let cs := candidates rt (globs (BaseImportWalker.init M)) root in
  let w' := (rename_imports rt root M N w).2 in
  dom (files w') = dom (files w)
  /\ (forall q, q ∉ cs -> files w' !! q = files w !! q).
Proof.
  intros cs w'. subst w'. unfold rename_imports, with_object, bind.
  rewrite walk_candidates; [| apply ImportRenamer_base | reflexivity].
  simpl base. simpl with_base. simpl _visit_module. fold cs.
  set (obj := Renamer _ _ _ _ _ _ _).
  pose proof (renamer_loop_keeps_files cs obj w) as H. simpl in H.
  destruct (for_each ImportRenamer._visit_module cs (obj, w)) as [r [o v]].
  destruct r as [[]|e]; exact H.
Qed.

(** X17: when a candidate cannot be read, or is matched by a matcher and
    cannot be opened for writing, [rename_imports] ends in the [IOError]
    for that path and prints no report; the files before it that a
    matcher matches have been rewritten and stay rewritten, and the
    candidate itself is as it was. *)
Theorem rename_imports_no_rollback (rt : runtime) (root M N bad : string)
    (pre post : list string) (w : world) :
  dotted_name M = true -> dotted_name N = true ->
  candidates rt (globs (BaseImportWalker.init M)) root = (pre ++ bad :: post)%list ->
  NoDup pre -> bad ∉ pre ->
  (forall p, p ∈ pre -> is_Some (files w !! p)) ->
  (forall p, p ∈ pre -> pattern_match M w p = true -> p ∉ unwritable w) ->
  files w !! bad = None \/ (pattern_match M w bad = true /\ bad ∈ unwritable w) ->
  exists w',
    rename_imports rt root M N w = (Raised (IOError bad), w')
    /\ stdout w' = stdout w
    /\ writes w' = (writes w ++ List.filter (pattern_match M w) pre)%list
    /\ (forall q, q ∈ pre ->
          files w' !! q = renamed (ImportRenamer.init M N) <$> files w !! q)
    /\ files w' !! bad = files w !! bad.
Proof.
  intros _ _ Hc Hnd Hnin Hr Hw Hbad. unfold rename_imports, with_object, bind.
  rewrite walk_candidates; [| apply ImportRenamer_base | reflexivity].
  simpl base. simpl with_base. simpl _visit_module. rewrite Hc.
  set (obj := Renamer _ _ _ _ _ _ _).
  assert (Hrw : forall p, rewrites obj w p = pattern_match M w p).
  { intros p. apply (rewrites_init _ M N [] w p). }
  rewrite for_each_app. unfold bind.
  destruct (renamer_run_full pre obj w Hnd Hr)
    as (w1 & E & Hout & Hun & Hwr & Hin & Hnot).
  { intros p Hp Hp'. apply (Hw p Hp). by rewrite <- Hrw. }
  rewrite E. simpl. unfold bind. rewrite renamer_visit.
  set (obj1 := with_output obj _).
  assert (Hb1 : files w1 !! bad = files w !! bad) by (by apply Hnot).
  assert (Hend : exists o,
            match files w1 !! bad with
            | Some source =>
                let '(regex, repl) := deciding obj1 source in
                if re_search regex source
                then write_back
                       (ImportRenamer.output_append
                          (report_entry bad source regex repl) obj1)
                       w1 bad (re_sub regex repl source)
                else (Returned tt, (obj1, w1))
            | None => (Raised (IOError bad), (obj1, w1))
            end = (Raised (IOError bad), (o, w1))).
  { rewrite Hb1. destruct Hbad as [Hnone | [Hpm Hro]].
    - rewrite Hnone. eauto.
    - rewrite <- Hrw in Hpm. unfold rewrites in Hpm.
      destruct (files w !! bad) as [source|]; [|discriminate Hpm].
      change (deciding obj1 source) with (deciding obj source).
      destruct (deciding obj source) as [regex repl]. simpl in Hpm.
      rewrite Hpm, write_back_unwritable; [eauto|]. by rewrite Hun. }
  destruct Hend as [o ->]. simpl.
  exists w1. split; [reflexivity|]. split; [exact Hout|].
  split; [|split].
  - rewrite Hwr. f_equal. apply (rewrites_init_filter _ M N []).
  - intros q Hq. by rewrite (Hin q Hq).
  - exact Hb1.
Qed.

Lemma rename_imports_no_rollback_witness :
  (exists w',
     rename_imports missing_rt "root" "foo" "qux" scenario_world
     = (Raised (IOError "root/gone.py"), w')
     /\ stdout w' = stdout scenario_world
     /\ writes w' = (writes scenario_world ++
                     List.filter (pattern_match "foo" scenario_world)
                       ["root/a.py"])%list
     /\ (forall q, q ∈ ["root/a.py"] ->
           files w' !! q
           = renamed (ImportRenamer.init "foo" "qux") <$> files scenario_world !! q)
     /\ files w' !! "root/gone.py" = files scenario_world !! "root/gone.py")
  /\ (let w := read_only ["root/b.py"] scenario_world in
      exists w',
        rename_imports scenario_rt "root" "foo" "qux" w
        = (Raised (IOError "root/b.py"), w')
        /\ stdout w' = stdout w
        /\ writes w' = (writes w ++
                        List.filter (pattern_match "foo" w) ["root/a.py"])%list
        /\ (forall q, q ∈ ["root/a.py"] ->
              files w' !! q
              = renamed (ImportRenamer.init "foo" "qux") <$> files w !! q)
        /\ files w' !! "root/b.py" = files w !! "root/b.py").
Proof.
  split.
  - apply (rename_imports_no_rollback missing_rt "root" "foo" "qux" "root/gone.py"
             ["root/a.py"] ["root/b.py"] scenario_world).
    + reflexivity.
    + reflexivity.
    + reflexivity.
    + refine (bool_decide_unpack _ _). vm_compute. exact I.
    + refine (bool_decide_unpack _ _). vm_compute. exact I.
    + intros p Hp. apply list_elem_of_singleton in Hp as ->. eexists; reflexivity.
    + intros p Hp _. apply list_elem_of_singleton in Hp as ->.
      vm_compute. intros H. discriminate H.
    + left. reflexivity.
  - intros w.
    apply (rename_imports_no_rollback scenario_rt "root" "foo" "qux" "root/b.py"
             ["root/a.py"] ["root/c.py"] w).
    + reflexivity.
    + reflexivity.
    + reflexivity.
    + refine (bool_decide_unpack _ _). vm_compute. exact I.
    + refine (bool_decide_unpack _ _). vm_compute. exact I.
    + intros p Hp. apply list_elem_of_singleton in Hp as ->. eexists; reflexivity.
    + intros p Hp _. apply list_elem_of_singleton in Hp as ->.
      vm_compute. intros H. discriminate H.
    + right. split; [reflexivity|]. refine (bool_decide_unpack _ _). vm_compute. exact I.
Defined.

(** X18: on a tree of distinct readable candidates, of which those that a
    matcher matches can be opened for writing, the files that the
    pattern-based finder collects for a module are exactly the files that
    the renamer writes for it. *)
Theorem finder_previews_renamer (rt : runtime) (root M N : string) (w : world) :
  let cs := candidates rt (globs (BaseImportWalker.init M)) root in
  dotted_name M = true -> dotted_name N = true ->
  NoDup cs ->
  (forall p, p ∈ cs -> is_Some (files w !! p)) ->
  (forall p, p ∈ cs -> pattern_match M w p = true -> p ∉ unwritable w) ->
  exists finder w' ws,
    BaseImportWalker.walk rt ImportFinderRE.cls root (ImportFinderRE.init M, w)
    = (Returned tt, (finder, w))
    /\ rename_imports rt root M N w = (Returned tt, w')
    /\ writes w' = (writes w ++ ws)%list
    /\ found_modules (finder_collecting finder) = list_to_set ws.
Proof.
  intros cs HM HN Hnd Hr Hw.
  destruct (rename_imports_run rt root M N w Hnd Hr Hw) as (w' & E & _ & Hwr & _).
  rewrite walk_candidates; [| apply ImportFinderRE_base | reflexivity].
  simpl base. simpl with_base. simpl _visit_module. simpl module_name. fold cs.
  unfold ImportFinderRE.init. simpl.
  change (IMPORT_PATTERN_TEMPLATE M) with (make_import_regexes M).1.
  change (IMPORT_FROM_PATTERN_TEMPLATE M) with (make_import_regexes M).2.
  rewrite (ImportFinderRE_run_readable M cs _ _ w Hr).
  eexists _, w', _. split; [reflexivity|]. split; [exact E|].
  split; [exact Hwr|]. simpl. by rewrite (right_id_L ∅ (∪)).
Qed.

Lemma finder_previews_renamer_witness :
  let w := read_only ["root/c.py"] scenario_world in
  exists finder w' ws,
    BaseImportWalker.walk scenario_rt ImportFinderRE.cls "root"
      (ImportFinderRE.init "foo", w)
    = (Returned tt, (finder, w))
    /\ rename_imports scenario_rt "root" "foo" "qux" w = (Returned tt, w')
    /\ writes w' = (writes w ++ ws)%list
    /\ found_modules (finder_collecting finder) = list_to_set ws.
Proof.
  intros w.
  apply (finder_previews_renamer scenario_rt "root" "foo" "qux" w).
  - reflexivity.
  - reflexivity.
  - refine (bool_decide_unpack _ _). vm_compute. exact I.
  - intros p Hp. vm_compute in Hp.
    repeat (apply elem_of_cons in Hp as [->|Hp]; [eexists; reflexivity|]).
    by apply not_elem_of_nil in Hp.
  - intros p Hp Hm. vm_compute in Hp.
    repeat (apply elem_of_cons in Hp as [->|Hp];
            [first [discriminate Hm | vm_compute; intros H; discriminate H]|]).
    by apply not_elem_of_nil in Hp.
Defined.

(** * Running the renamer twice *)

Example tidy_files :
  tidy "foo" ("import os" +:+ NL +:+ "import foo.bar" +:+ NL +:+ "try:" +:+ NL
              +:+ "    import foo as f")
  = true
  /\ tidy "foo" ("from foo import baz, quux" +:+ NL +:+ "x = 1") = true
  /\ tidy "foo" ("import foo" +:+ NL +:+ "from foo import baz") = false
  /\ tidy "foo" "import foo; import foo.bar" = false
  /\ tidy "foo" "from foo.a import foo" = false
  /\ clash (atoms_of "foo") "qux" = true
  /\ clash (atoms_of "foo") "foobar" = false
  /\ clash (atoms_of "foo.bar") "foo" = false.
Proof. vm_compute. repeat split. Qed.

(** ** Lines *)

Lemma split_lines_not_nil (s : string) : split_lines s <> [].
Proof.
  induction s as [|c s IH]; simpl; [discriminate|].
  destruct (Ascii.eqb c newline); [discriminate|].
  destruct (split_lines s); discriminate.
Qed.

Lemma join_split_lines (s : string) : join_lines (split_lines s) = s.
Proof.
  induction s as [|c s IH]; [reflexivity|]. simpl.
  destruct (Ascii.eqb c newline) eqn:E.
  - apply Ascii.eqb_eq in E. subst c.
    pose proof (split_lines_not_nil s) as Hne.
    destruct (split_lines s) as [|l ls]; [contradiction|].
    change (join_lines ("" :: l :: ls)) with (String newline (join_lines (l :: ls))).
    by rewrite IH.
  - destruct (split_lines s) as [|l ls]; [by rewrite <- IH|].
    destruct ls as [|l' ls].
    + simpl in *. by rewrite IH.
    + change (join_lines (String c l :: l' :: ls))
        with (String c (join_lines (l :: l' :: ls))).
      by rewrite IH.
Qed.

Lemma search_empty (r : regex) : re_head r <> [] -> re_search r "" = false.
Proof.
  intros H. simpl. unfold match_at. destruct (re_head r); [contradiction|reflexivity].
Qed.

(** A search in a text is a search in its first line or in the rest. *)
Lemma search_line (r : regex) (l rest : string) :
  head_on_one_line r -> one_line l = true ->
  re_search r (l +:+ String newline rest) = re_search r l || re_search r rest.
Proof.
  intros Hr. induction l as [|c l IH]; intros Hl.
  - change ("" +:+ String newline rest) with (String newline rest).
    rewrite (search_empty r); [|apply Hr].
    cbn [re_search orb]. by rewrite (match_at_newline r rest Hr).
  - simpl in Hl. apply andb_true_iff in Hl as [_ Hl].
    rewrite append_cons. cbn [re_search].
    change (String c (l +:+ String newline rest))
      with (String c l +:+ String newline rest).
    rewrite (match_at_before_newline r (String c l) rest Hr).
    destruct (match_at r (String c l)); [reflexivity | by apply IH].
Qed.

Lemma search_join_lines (r : regex) (ls : list string) :
  head_on_one_line r ->
  Forall (fun l => one_line l = true /\ re_search r l = false) ls ->
  re_search r (join_lines ls) = false.
Proof.
  intros Hr Hls. induction Hls as [|l ls [Hl Hs] Hls IH].
  - apply search_empty, Hr.
  - destruct ls as [|l' ls]; [exact Hs|].
    change (join_lines (l :: l' :: ls))
      with (l +:+ String newline (join_lines (l' :: ls))).
    by rewrite (search_line r l _ Hr Hl), Hs, IH.
Qed.

Lemma sub_join_lines (r : regex) (repl : string) (ls : list string) :
  head_on_one_line r ->
  Forall (fun l => one_line l = true) ls ->
  re_sub r repl (join_lines ls) = join_lines (re_sub r repl <$> ls).
Proof.
  intros Hr Hls. induction Hls as [|l ls Hl Hls IH]; [reflexivity|].
  destruct ls as [|l' ls]; [reflexivity|].
  change (join_lines (l :: l' :: ls))
    with (l +:+ String newline (join_lines (l' :: ls))).
  unfold re_sub at 1. rewrite (render_scan_line r repl l _ false Hr Hl).
  fold (re_sub r repl l). fold (re_sub r repl (join_lines (l' :: ls))).
  rewrite IH. reflexivity.
Qed.

(** ** Where a matcher can match in a renamed statement *)

Lemma drop_prefix_spec (p s g : string) :
  drop_prefix p s = Some g -> s = p +:+ g.
Proof.
  revert s. induction p as [|a p IH]; intros s; simpl.
  - by intros [= ->].
  - destruct s as [|b s]; [discriminate|].
    destruct (Ascii.eqb a b) eqn:E; [|discriminate].
    apply Ascii.eqb_eq in E. subst b. intros H. by rewrite (IH s H).
Qed.

Lemma clash_no_match (h : list atom) (n g : string) :
  clash h n = true -> match_head h (n +:+ g) = None.
Proof.
  revert n. induction h as [|a h IH]; intros n; [discriminate|].
  destruct n as [|c n]; [discriminate|]. simpl.
  destruct (atom_matches a c); simpl; [apply IH | reflexivity].
Qed.

Lemma search_suffix (r : regex) (x g : string) :
  re_search r (x +:+ g) = false -> re_search r g = false.
Proof.
  induction x as [|c x IH]; [by intros|].
  rewrite append_cons. intros H. apply search_false_cons in H as [_ H]. auto.
Qed.

Lemma match_head_keyword (kw : string) (h : list atom) (s : string) :
  is_Some (match_head (literal kw ++ h) s) -> String.prefix kw s = true.
Proof.
  revert s. induction kw as [|k kw IH]; intros s; simpl.
  - by destruct s.
  - destruct s as [|c s]; [by intros [? ?]|].
    destruct (Ascii.eqb k c) eqn:E; [|by intros [? ?]].
    apply Ascii.eqb_eq in E. subst c. intros H.
    apply prefix_cons. split; [reflexivity | by apply IH].
Qed.

Lemma word_char_ident (c : ascii) : word_char c = true -> ident_char c = true.
Proof. unfold word_char. intros H. by apply andb_true_iff in H as [H _]. Qed.

(** A keyword ends with a space and a name holds none: a keyword that
    starts inside a name, before a text that does not continue the name,
    takes up the rest of the name. *)
Lemma keyword_straddle (body t g : string) :
  Forall (fun c => word_char c = true) (list_ascii_of_string body) ->
  all_ident_chars t = true -> boundary g = true ->
  String.prefix (body +:+ " ") (t +:+ g) = true ->
  t = body.
Proof.
  revert t. induction body as [|b body IH]; intros t Hb Ht Hg H.
  - destruct t as [|c t]; [reflexivity|].
    rewrite append_cons in H. change ("" +:+ " ") with " " in H.
    apply prefix_cons in H as [<- _]. simpl in Ht. discriminate Ht.
  - simpl in Hb. apply Forall_cons in Hb as [Hb Hbody].
    rewrite append_cons in H. destruct t as [|c t].
    + change ("" +:+ g) with g in H. destruct g as [|c g]; [discriminate H|].
      apply prefix_cons in H as [<- _]. simpl in Hg. by rewrite Hb in Hg.
    + rewrite append_cons in H. apply prefix_cons in H as [<- H].
      simpl in Ht. apply andb_true_iff in Ht as [_ Ht].
      by rewrite (IH t Hbody Ht Hg H).
Qed.

Lemma ends_with_self (s : string) : ends_with s s = true.
Proof. destruct s; cbn [ends_with]; by rewrite String.eqb_refl. Qed.

Lemma ends_with_cons (c : ascii) (s suffix : string) :
  ends_with (String c s) suffix = false -> ends_with s suffix = false.
Proof. cbn [ends_with]. intros H. by apply orb_false_iff in H as [_ H]. Qed.

(** No match of a matcher starts inside the new name. *)
Lemma search_after_name (body : string) (h : list atom) (grp : group)
    (n g : string) :
  Forall (fun c => word_char c = true) (list_ascii_of_string body) ->
  all_ident_chars n = true -> boundary g = true ->
  ends_with n body = false ->
  re_search (Regex (literal (body +:+ " ") ++ h) grp) g = false ->
  re_search (Regex (literal (body +:+ " ") ++ h) grp) (n +:+ g) = false.
Proof.
  intros Hb Hn Hg He Hs. induction n as [|c n IH]; [exact Hs|].
  rewrite append_cons. cbn [re_search]. rewrite <- append_cons.
  destruct (match_at _ (String c n +:+ g)) as [x|] eqn:E.
  - exfalso. unfold match_at in E. cbn [re_head] in E.
    destruct (match_head _ (String c n +:+ g)) as [rest|] eqn:Em; [|discriminate E].
    assert (Hp : String.prefix (body +:+ " ") (String c n +:+ g) = true).
    { apply (match_head_keyword _ h). rewrite Em. eauto. }
    apply (keyword_straddle body (String c n) g Hb Hn Hg) in Hp.
    rewrite Hp, ends_with_self in He. discriminate He.
  - simpl in Hn. apply andb_true_iff in Hn as [_ Hn].
    apply IH; [exact Hn | by apply ends_with_cons in He].
Qed.

Lemma search_cons_no (r : regex) (c : ascii) (s : string) :
  match_at r (String c s) = None -> re_search r (String c s) = re_search r s.
Proof. intros H. cbn [re_search]. by rewrite H. Qed.

Lemma word_chars_import :
  Forall (fun c => word_char c = true) (list_ascii_of_string "import").
Proof. repeat constructor. Qed.

Lemma word_chars_from :
  Forall (fun c => word_char c = true) (list_ascii_of_string "from").
Proof. repeat constructor. Qed.

Section Renamed.

Variables M N : string.
Hypothesis HM : all_ident_chars M = true.
Hypothesis HN : all_ident_chars N = true.
Hypothesis Hclash : clash (atoms_of M) N = true.
Hypothesis Himport : ends_with N "import" = false.
Hypothesis Hfrom : ends_with N "from" = false.

Local Notation P := (IMPORT_PATTERN_TEMPLATE M).
Local Notation F := (IMPORT_FROM_PATTERN_TEMPLATE M).

(** The plain import of the new name is matched by neither matcher for
    the old one. *)
Lemma renamed_import_idle (g : string) :
  boundary g = true -> re_search P g = false -> re_search F g = false ->
  re_search P ("import " +:+ N +:+ g) = false
  /\ re_search F ("import " +:+ N +:+ g) = false.
Proof.
  intros Hg HP HF.
  assert (H0 : match_at P ("import " +:+ N +:+ g) = None).
  { unfold match_at, IMPORT_PATTERN_TEMPLATE. cbn [re_head].
    by rewrite match_head_literal, (clash_no_match _ N g Hclash). }
  change ("import " +:+ N +:+ g)
    with (String "i" (String "m" (String "p" (String "o" (String "r"
            (String "t" (String " " (N +:+ g)))))))) in *.
  split.
  - rewrite (search_cons_no P _ _ H0).
    do 6 (rewrite search_cons_no by reflexivity).
    by apply (search_after_name "import" (atoms_of M) RestOfLine N g
                word_chars_import).
  - do 7 (rewrite search_cons_no by reflexivity).
    by apply (search_after_name "from" (atoms_of M) ImportClause N g
                word_chars_from).
Qed.

(** Nor is the from-import of the new name. *)
Lemma renamed_from_idle (g : string) :
  boundary g = true -> re_search P g = false -> re_search F g = false ->
  re_search P ("from " +:+ N +:+ g) = false
  /\ re_search F ("from " +:+ N +:+ g) = false.
Proof.
  intros Hg HP HF.
  assert (H0 : match_at F ("from " +:+ N +:+ g) = None).
  { unfold match_at, IMPORT_FROM_PATTERN_TEMPLATE. cbn [re_head].
    by rewrite match_head_literal, (clash_no_match _ N g Hclash). }
  change ("from " +:+ N +:+ g)
    with (String "f" (String "r" (String "o" (String "m" (String " " (N +:+ g))))))
    in *.
  split.
  - do 5 (rewrite search_cons_no by reflexivity).
    by apply (search_after_name "import" (atoms_of M) RestOfLine N g
                word_chars_import).
  - rewrite (search_cons_no F _ _ H0).
    do 4 (rewrite search_cons_no by reflexivity).
    by apply (search_after_name "from" (atoms_of M) ImportClause N g
                word_chars_from).
Qed.

Lemma idle_line_spec (l : string) :
  idle_line M l = true <->
  one_line l = true /\ re_search P l = false /\ re_search F l = false.
Proof.
  unfold idle_line. rewrite !andb_true_iff, !negb_true_iff. tauto.
Qed.

(** A plain import of the old name is, once renamed, a line that neither
    matcher matches. *)
Lemma plain_statement_after (l : string) :
  plain_statement M l = true ->
  one_line l = true
  /\ idle_line M (re_sub P ("import " +:+ N) l) = true.
Proof.
  unfold plain_statement. destruct (drop_prefix _ l) as [g|] eqn:E; [|discriminate].
  apply drop_prefix_spec in E. rewrite append_assoc in E. subst l.
  rewrite !andb_true_iff, !negb_true_iff. intros [[[Hg Hb] HP] HF].
  split.
  - by rewrite !one_line_append, Hg, (ident_chars_one_line M HM).
  - rewrite (sub_import_statement M _ g HM Hg), append_assoc.
    apply idle_line_spec. split; [|by apply renamed_import_idle].
    by rewrite !one_line_append, Hg, (ident_chars_one_line N HN).
Qed.

(** So is a from-import of the old name. *)
Lemma from_statement_after (l : string) :
  from_statement M l = true ->
  one_line l = true /\ re_search P l = false
  /\ idle_line M (re_sub F ("from " +:+ N) l) = true.
Proof.
  unfold from_statement. destruct (drop_prefix _ l) as [g|] eqn:E; [|discriminate].
  apply drop_prefix_spec in E. rewrite append_assoc in E. subst l.
  rewrite !andb_true_iff, !negb_true_iff. intros [[[[Hg Hb] Hc] HF] HP].
  split; [|split; [exact HP|]].
  - by rewrite !one_line_append, Hg, (ident_chars_one_line M HM).
  - rewrite (sub_from_statement M _ g HM Hg Hc), append_assoc.
    apply idle_line_spec. split.
    + by rewrite !one_line_append, Hg, (ident_chars_one_line N HN).
    + apply renamed_from_idle; [exact Hb | | exact HF].
      rewrite <- append_assoc in HP. by apply search_suffix in HP.
Qed.

(** No match starts in the indentation of a line. *)
Lemma blank_no_match (c : ascii) (s : string) :
  blank c = true ->
  match_at P (String c s) = None /\ match_at F (String c s) = None.
Proof.
  unfold blank. intros H.
  apply orb_true_iff in H as [H|H]; apply Ascii.eqb_eq in H; subst c;
    split; reflexivity.
Qed.

Lemma blank_one_line (c : ascii) (s : string) :
  blank c = true -> one_line (String c s) = one_line s.
Proof.
  unfold blank. intros H.
  apply orb_true_iff in H as [H|H]; apply Ascii.eqb_eq in H; subst c; reflexivity.
Qed.

Lemma idle_line_indented (c : ascii) (s : string) :
  blank c = true -> idle_line M s = true -> idle_line M (String c s) = true.
Proof.
  intros Hc Hs. destruct (blank_no_match c s Hc) as [HP HF].
  apply idle_line_spec in Hs as (H1 & H2 & H3). apply idle_line_spec.
  rewrite (blank_one_line c s Hc), (search_cons_no P c s HP),
    (search_cons_no F c s HF). auto.
Qed.

Lemma sub_indented (r : regex) (repl : string) (c : ascii) (s : string) :
  match_at r (String c s) = None ->
  re_sub r repl (String c s) = String c (re_sub r repl s).
Proof. intros H. unfold re_sub. cbn [scan andb]. by rewrite H. Qed.

Lemma plain_line_after (l : string) :
  plain_line M l = true ->
  one_line l = true
  /\ idle_line M (re_sub P ("import " +:+ N) l) = true.
Proof.
  unfold plain_line. induction l as [|c l IH]; [discriminate|].
  cbn [lstrip]. destruct (blank c) eqn:Hc; [|apply plain_statement_after].
  intros H. destruct (IH H) as [H1 H2]. destruct (blank_no_match c l Hc) as [HP _].
  rewrite (blank_one_line c l Hc), (sub_indented P _ c l HP).
  split; [exact H1 | by apply idle_line_indented].
Qed.

Lemma from_line_after (l : string) :
  from_line M l = true ->
  one_line l = true /\ re_search P l = false
  /\ idle_line M (re_sub F ("from " +:+ N) l) = true.
Proof.
  unfold from_line. induction l as [|c l IH]; [discriminate|].
  cbn [lstrip]. destruct (blank c) eqn:Hc; [|apply from_statement_after].
  intros H. destruct (IH H) as (H1 & H2 & H3).
  destruct (blank_no_match c l Hc) as [HP HF].
  rewrite (blank_one_line c l Hc), (sub_indented F _ c l HF),
    (search_cons_no P c l HP).
  split; [exact H1|]. split; [exact H2 | by apply idle_line_indented].
Qed.

Lemma idle_line_after (r : regex) (repl l : string) :
  idle_line M l = true -> re_search r l = false ->
  one_line l = true /\ idle_line M (re_sub r repl l) = true.
Proof.
  intros Hi Hr. rewrite (sub_without_match_is_identity_aux r repl l Hr).
  split; [|exact Hi]. by apply idle_line_spec in Hi as [H _].
Qed.

Lemma one_line_heads :
  head_on_one_line P /\ head_on_one_line F.
Proof.
  pose proof (atoms_of_one_line M HM) as Ha.
  split; (split; [discriminate|]); simpl; repeat (constructor; [reflexivity|]);
    exact Ha.
Qed.

Lemma idle_lines_join (ls : list string) :
  Forall (fun l => idle_line M l = true) ls ->
  re_search P (join_lines ls) = false /\ re_search F (join_lines ls) = false.
Proof.
  intros H. destruct one_line_heads as [HP HF].
  split; apply search_join_lines; try assumption;
    (eapply Forall_impl; [exact H|]); intros l Hl;
    apply idle_line_spec in Hl; tauto.
Qed.

(** What the renamer leaves of a tidy file is matched by neither
    matcher. *)
Lemma tidy_lines_renamed (b : BaseImportWalker) (out : list string)
    (ls : list string) :
  tidy_lines M ls = true ->
  re_search P (renamed (renamer_at b M N out) (join_lines ls)) = false
  /\ re_search F (renamed (renamer_at b M N out) (join_lines ls)) = false.
Proof.
  destruct one_line_heads as [HP HF].
  unfold tidy_lines. rewrite orb_true_iff, !forallb_forall.
  unfold renamed, deciding.
  cbn [renamer_at import_regex import_from_regex import_repl import_from_repl
       make_import_regexes fst snd].
  intros [H|H].
  - assert (H1 : Forall (fun l => one_line l = true) ls
                 /\ Forall (fun l => idle_line M l = true)
                      (re_sub P ("import " +:+ N) <$> ls)).
    { rewrite Forall_fmap, <- Forall_and. apply Forall_forall. intros l Hl.
      apply list_elem_of_In in Hl. specialize (H l Hl).
      apply orb_true_iff in H as [H|H].
      - by apply plain_line_after.
      - apply idle_line_after; [exact H|]. apply idle_line_spec in H. tauto. }
    destruct H1 as [Hone Hidle]. apply idle_lines_join in Hidle.
    rewrite <- (sub_join_lines P _ ls HP Hone) in Hidle.
    destruct (re_search P (join_lines ls)) eqn:E; [exact Hidle|].
    rewrite (sub_without_match_is_identity_aux P _ _ E) in Hidle.
    destruct Hidle as [_ HFs].
    by rewrite (sub_without_match_is_identity_aux F _ _ HFs).
  - assert (H1 : Forall (fun l => one_line l = true /\ re_search P l = false) ls
                 /\ Forall (fun l => idle_line M l = true)
                      (re_sub F ("from " +:+ N) <$> ls)).
    { rewrite Forall_fmap, <- Forall_and. apply Forall_forall. intros l Hl.
      apply list_elem_of_In in Hl. specialize (H l Hl).
      apply orb_true_iff in H as [H|H].
      - apply from_line_after in H. simpl. tauto.
      - pose proof H as H'. apply idle_line_spec in H' as (Ho & Hp & Hf).
        destruct (idle_line_after F ("from " +:+ N) l H Hf). simpl. tauto. }
    destruct H1 as [HoneP Hidle]. apply idle_lines_join in Hidle.
    rewrite (search_join_lines P ls HP HoneP).
    rewrite sub_join_lines; [exact Hidle | exact HF |].
    eapply Forall_impl; [exact HoneP|]. simpl. tauto.
Qed.

End Renamed.

(** ** The two runs *)

(** A text that neither matcher matches is left as it is. *)
Lemma renamed_settled (obj : ImportRenamer) (s : string) :
  re_search (import_regex obj) s = false ->
  re_search (import_from_regex obj) s = false ->
  renamed obj s = s.
Proof.
  intros H1 H2. apply renamed_unmatched. unfold deciding. by rewrite H1.
Qed.

(** One visit that returned leaves the renamed text in the file and
    touches no other file. *)
Lemma renamer_visit_returned (p : string) (obj obj1 : ImportRenamer)
    (w w1 : world) :
  ImportRenamer._visit_module p (obj, w) = (Returned tt, (obj1, w1)) ->
  exists source,
    files w !! p = Some source
    /\ files w1 !! p = Some (renamed obj source)
    /\ (forall q, q <> p -> files w1 !! q = files w !! q)
    /\ import_regex obj1 = import_regex obj
    /\ import_from_regex obj1 = import_from_regex obj
    /\ (forall s, renamed obj1 s = renamed obj s).
Proof.
  intros E. rewrite renamer_visit in E.
  destruct (files w !! p) as [source|] eqn:Hf; [|discriminate E].
  exists source. split; [reflexivity|].
  pose proof (renamed_unmatched obj source) as Hun. unfold renamed in *.
  destruct (deciding obj source) as [regex repl]. simpl in Hun.
  destruct (re_search regex source).
  - unfold write_back in E.
    destruct (decide (p ∈ unwritable w)); [discriminate E|].
    injection E as <- <-. simpl. rewrite lookup_insert_eq.
    split; [reflexivity|]. split; [|by repeat split].
    intros q' Hq'. by rewrite lookup_insert_ne.
  - injection E as <- <-. rewrite Hun by reflexivity. by repeat split.
Qed.

(** After a run that returned, every visited file holds a text that no
    matcher matches, provided that the renaming of the text it held
    before the run is such a text.  A file may be visited more than
    once. *)
Lemma renamer_run_settles (l : list string) (obj obj' : ImportRenamer)
    (w w' : world) :
  (forall q s, q ∈ l -> files w !! q = Some s ->
     re_search (import_regex obj) (renamed obj s) = false
     /\ re_search (import_from_regex obj) (renamed obj s) = false) ->
  for_each ImportRenamer._visit_module l (obj, w) = (Returned tt, (obj', w')) ->
  forall q, q ∈ l ->
    exists s, files w' !! q = Some s
              /\ re_search (import_regex obj) s = false
              /\ re_search (import_from_regex obj) s = false.
Proof.
  revert obj w. induction l as [|p l IH]; intros obj w Hgood Hrun q Hq.
  - by apply elem_of_nil in Hq.
  - simpl in Hrun. unfold bind in Hrun.
    destruct (ImportRenamer._visit_module p (obj, w)) as [[[]|e] [obj1 w1]] eqn:E;
      [|discriminate Hrun].
    destruct (renamer_visit_returned p obj obj1 w w1 E)
      as (source & Hf & Hf1 & Hother & HP & HF & Hren).
    destruct (Hgood p source (list_elem_of_here p l) Hf) as [Hs1 Hs2].
    assert (Hgood1 : forall q s, q ∈ l -> files w1 !! q = Some s ->
              re_search (import_regex obj1) (renamed obj1 s) = false
              /\ re_search (import_from_regex obj1) (renamed obj1 s) = false).
    { intros q' s Hq' Hs. rewrite HP, HF, Hren.
      destruct (decide (q' = p)) as [->|Hne].
      - rewrite Hf1 in Hs. injection Hs as <-.
        by rewrite (renamed_settled obj _ Hs1 Hs2).
      - rewrite (Hother q' Hne) in Hs. apply (Hgood q' s); [by right | exact Hs]. }
    destruct (decide (q ∈ l)) as [Hin|Hnin].
    + destruct (IH obj1 w1 Hgood1 Hrun q Hin) as (s & Hs & H1 & H2).
      exists s. by rewrite <- HP, <- HF.
    + apply elem_of_cons in Hq as [->|Hq]; [|contradiction].
      exists (renamed obj source). split; [|by split].
      destruct (renamer_loop_keeps_files l obj1 w1) as [_ Hkeep].
      rewrite Hrun in Hkeep. simpl in Hkeep. by rewrite (Hkeep p Hnin).
Qed.

(** A run over files that no matcher matches does nothing. *)
Lemma renamer_noop (l : list string) (obj : ImportRenamer) (w : world) :
  (forall p, p ∈ l ->
     exists source, files w !! p = Some source
                    /\ re_search (import_regex obj) source = false
                    /\ re_search (import_from_regex obj) source = false) ->
  for_each ImportRenamer._visit_module l (obj, w) = (Returned tt, (obj, w)).
Proof.
  induction l as [|q l IH]; intros H; simpl; [reflexivity|].
  destruct (H q) as (source & Hf & H1 & H2); [left|].
  unfold bind. rewrite renamer_visit, Hf. unfold deciding. rewrite H1, H2.
  apply IH. intros p Hp. apply H. by right.
Qed.

(** C3, as stated, fails.  On a file with a plain import and a
    from-import of [foo], the first run of [foo] to [qux] rewrites the
    plain import only and the second run rewrites the from-import; and
    with [foobar] as the new name the second run rewrites the statement
    the first run produced.  A second run also finds work to do after a
    second statement on the line of the first, in a from-import of a
    submodule that imports a name starting with the module name, and
    when the new name is the beginning of the old one. *)
Lemma second_run_rewrites_again :
  let w1 := (rename_imports mixed_rt "root" "foo" "qux" mixed_world).2 in
  let w2 := (rename_imports mixed_rt "root" "foo" "qux" w1).2 in
  let v1 := (rename_imports scenario_rt "root" "foo" "foobar" scenario_world).2 in
  let v2 := (rename_imports scenario_rt "root" "foo" "foobar" v1).2 in
  let twice := fun M N w =>
    let u1 := (rename_imports mixed_rt "root" M N w).2 in
    let u2 := (rename_imports mixed_rt "root" M N u1).2 in
    (files u1 !! "root/m.py", files u2 !! "root/m.py") in
  (rename_imports mixed_rt "root" "foo" "qux" mixed_world).1 = Returned tt
  /\ files w1 !! "root/m.py" = Some ("import qux" +:+ NL +:+ "from foo import baz")
  /\ files w2 !! "root/m.py" = Some ("import qux" +:+ NL +:+ "from qux import baz")
  /\ writes w2 = (writes w1 ++ ["root/m.py"])%list
  /\ files v1 !! "root/a.py" = Some "import foobar.bar"
  /\ files v2 !! "root/a.py" = Some "import foobarbar.bar"
  /\ twice "foo" "qux" two_on_a_line_world
     = (Some "import qux; import foo.bar", Some "import qux; import qux.bar")
  /\ twice "foo" "qux" from_and_name_world
     = (Some "from foo.a import qux", Some "from qux.a import qux")
  /\ twice "foo.bar" "foo" deeper_world
     = (Some "import foo.bar", Some "import foo").
Proof. vm_compute. repeat split. Qed.

(** C3, amended: idempotence on tidy trees.  Let the new name depart
    from the old one at a position that both have, and end neither with
    [import] nor with [from]; let every candidate be, before the first
    run, a tidy file for the old name: each of its lines is an import
    statement of the old name after its indentation, or a line that
    neither matcher matches, and the file does not mix plain imports
    with from-imports.  Then a second run of [rename_imports] for the
    same pair, right after a first run that returned, returns as well,
    writes no file, leaves the content of every file as the first run
    left it and prints an empty report. *)
Theorem second_run_is_idle (rt : runtime) (root M N : string) (w0 w1 : world) :
  let cs := candidates rt (globs (BaseImportWalker.init M)) root in
  dotted_name M = true -> dotted_name N = true ->
  clash (atoms_of M) N = true ->
  ends_with N "import" = false -> ends_with N "from" = false ->
  (forall p source, p ∈ cs -> files w0 !! p = Some source -> tidy M source = true) ->
  rename_imports rt root M N w0 = (Returned tt, w1) ->
  rename_imports rt root M N w1 =
    (Returned tt, World (files w1) (unwritable w1) (writes w1) (stdout w1 ++ [""])).
Proof.
  intros cs HM HN Hc Hi Hf Ht Hrun.
  apply dotted_name_chars in HM, HN.
  unfold rename_imports, with_object, bind in *.
  rewrite walk_candidates in Hrun; [| apply ImportRenamer_base | reflexivity].
  rewrite walk_candidates; [| apply ImportRenamer_base | reflexivity].
  simpl base in *. simpl with_base in *. simpl _visit_module in *. fold cs in Hrun.
  fold cs.
  set (obj := Renamer _ _ _ _ _ _ _) in *.
  destruct (for_each ImportRenamer._visit_module cs (obj, w0))
    as [[[]|e] [obj1 v1]] eqn:E1; [|discriminate Hrun].
  simpl in Hrun. injection Hrun as <-.
  rewrite renamer_noop; [reflexivity|].
  apply (renamer_run_settles cs obj obj1 w0 v1); [|exact E1].
  intros p source Hp H0.
  pose proof (Ht p source Hp H0) as Htidy. unfold tidy in Htidy.
  rewrite <- (join_split_lines source).
  apply (tidy_lines_renamed M N HM HN Hc Hi Hf _ [] _ Htidy).
Qed.

Lemma second_run_is_idle_witness :
  let w1 := (rename_imports scenario_rt "root" "foo" "qux" tidy_world).2 in
  rename_imports scenario_rt "root" "foo" "qux" w1 =
    (Returned tt, World (files w1) (unwritable w1) (writes w1) (stdout w1 ++ [""])).
Proof.
  intros w1.
  apply (second_run_is_idle scenario_rt "root" "foo" "qux" tidy_world w1).
  - reflexivity.
  - reflexivity.
  - reflexivity.
  - reflexivity.
  - reflexivity.
  - intros p source Hp Hf. vm_compute in Hp.
    repeat (apply elem_of_cons in Hp as [->|Hp];
            [vm_compute in Hf; injection Hf as <-; reflexivity|]).
    by apply not_elem_of_nil in Hp.
  - reflexivity.
Defined.

Example tidy_tree_renamed_once :
  let w1 := (rename_imports scenario_rt "root" "foo" "qux" tidy_world).2 in
  files w1 !! "root/a.py"
  = Some ("import os" +:+ NL +:+ "import qux.bar" +:+ NL +:+ "try:" +:+ NL
          +:+ "    import qux as f")
  /\ files w1 !! "root/b.py" = Some ("from qux import baz, quux" +:+ NL +:+ "x = 1")
  /\ writes w1 = ["root/a.py"; "root/b.py"]
  /\ stdout w1 = ["root/a.py" +:+ NL +:+ "root/b.py"].
Proof. vm_compute. repeat split. Qed.

(** * The base class and the entry points *)

(** X19: the walk of a bare [BaseImportWalker] returns when the tree has
    no candidate file and raises [NotImplementedError] at the first
    candidate otherwise; either way it has recorded the walked root and
    touched nothing else. *)
Theorem base_walker_raises_at_first_candidate (rt : runtime) (root : string)
    (b : BaseImportWalker) (w : world) :
  BaseImportWalker.walk rt BaseImportWalker.cls root (b, w) =
  (match candidates rt (globs b) root with
   | [] => Returned tt
   | _ => Raised NotImplementedError
   end,
   (Base (module_name b) (Some root) (globs b), w)).
Proof.
  rewrite walk_candidates; [| reflexivity | reflexivity]. simpl.
  by destruct (candidates rt (globs b) root).
Qed.

(** X20: [find_imports_main] raises [TypeError] and touches nothing
    when fewer than two arguments follow the program name, ignores every
    argument after the second, and never changes a file or the write
    log, whatever the arguments. *)
Theorem find_imports_main_arguments (rt : runtime) (argv : list string)
    (w : world) :
  (List.length argv < 3 -> find_imports_main rt argv w = (Uncaught_TypeError, w))
  /\ (forall prog path m extra,
        argv = prog :: path :: m :: extra ->
        find_imports_main rt argv w = run_main (find_imports rt path m) w)
  /\ same_disk w (find_imports_main rt argv w).2.
Proof.
  split; [|split].
  - destruct argv as [|a [|b [|c l]]]; simpl; intros H; try reflexivity; lia.
  - intros prog path m extra ->. reflexivity.
  - destruct argv as [|a [|b [|c l]]]; try (split; reflexivity).
    unfold find_imports_main, run_main. simpl.
    pose proof (find_imports_same_disk rt b c w) as H.
    destruct (find_imports rt b c w) as [[[]|e] w']; exact H.
Qed.

(** X21: [rename_imports_main] raises [TypeError] and touches nothing
    when fewer than three arguments follow the program name, ignores
    every argument after the third, and never creates or deletes a file,
    whatever the arguments. *)
Theorem rename_imports_main_arguments (rt : runtime) (argv : list string)
    (w : world) :
  (List.length argv < 4 -> rename_imports_main rt argv w = (Uncaught_TypeError, w))
  /\ (forall prog path m n extra,
        argv = prog :: path :: m :: n :: extra ->
        rename_imports_main rt argv w = run_main (rename_imports rt path m n) w)
  /\ dom (files (rename_imports_main rt argv w).2) = dom (files w).
Proof.
  split; [|split].
  - destruct argv as [|a [|b [|c [|d l]]]]; simpl; intros H; try reflexivity; lia.
  - intros prog path m n extra ->. reflexivity.
  - destruct argv as [|a [|b [|c [|d l]]]]; try reflexivity.
    unfold rename_imports_main, run_main. simpl.
    assert (H : dom (files (rename_imports rt b c d w).2) = dom (files w)).
    { unfold rename_imports, with_object, bind.
      rewrite walk_candidates; [| apply ImportRenamer_base | reflexivity].
      simpl base. simpl with_base. simpl _visit_module.
      set (obj := Renamer _ _ _ _ _ _ _).
      destruct (renamer_loop_keeps_files
                  (candidates rt (globs (BaseImportWalker.init c)) b) obj w)
        as [H _].
      destruct (for_each ImportRenamer._visit_module _ (obj, w)) as [r [o v]].
      destruct r as [[]|e]; exact H. }
    destruct (rename_imports rt b c d w) as [[[]|e] w']; exact H.
Qed.

Lemma find_imports_main_arguments_witness :
  find_imports_main scenario_rt ["find-imports"; "root"] scenario_world
  = (Uncaught_TypeError, scenario_world)
  /\ find_imports_main scenario_rt ["find-imports"; "root"; "foo"; "more"]
       scenario_world
     = run_main (find_imports scenario_rt "root" "foo") scenario_world.
Proof.
  split.
  - apply (find_imports_main_arguments scenario_rt ["find-imports"; "root"]
             scenario_world).
    simpl. lia.
  - apply (find_imports_main_arguments scenario_rt
             ["find-imports"; "root"; "foo"; "more"] scenario_world
           ) with (prog := "find-imports") (extra := ["more"]).
    reflexivity.
Defined.

Lemma rename_imports_main_arguments_witness :
  rename_imports_main scenario_rt ["rename-imports"; "root"; "foo"] scenario_world
  = (Uncaught_TypeError, scenario_world)
  /\ rename_imports_main scenario_rt
       ["rename-imports"; "root"; "foo"; "qux"; "more"] scenario_world
     = run_main (rename_imports scenario_rt "root" "foo" "qux") scenario_world.
Proof.
  split.
  - apply (rename_imports_main_arguments scenario_rt
             ["rename-imports"; "root"; "foo"] scenario_world).
    simpl. lia.
  - apply (rename_imports_main_arguments scenario_rt
             ["rename-imports"; "root"; "foo"; "qux"; "more"] scenario_world
           ) with (prog := "rename-imports") (extra := ["more"]).
    reflexivity.
Defined.

